(** * AID universes: a shallow embedding of
    [aim/agent/aid/universes/base_universe.py] and
    [aim/agent/aid/universes/aim_universe.py].

    Python objects are mutable and every call may raise, so the methods are
    embedded in a state-and-exception monad [M S A]: a computation takes the
    state it may mutate and gives back an [outcome] (a returned value or a
    raised exception) together with the state as the call left it.  A raise
    keeps the mutations made before it, as in Python.

    Dictionaries are [gmap]s, sets are [gset]s, tuples and lists are lists.
    Whatever lives outside the two files (the hash-tree library, the AIM
    manager, the ACI converter, the configuration manager, the clock) is a
    section variable or a class method: the theorems hold for every
    behaviour of it.  The code is Python 2 ([iteritems], [e.message]).
    Log lines are modelled where a statement speaks of them (the warning of
    [get_resources], the error of [push_resources]) and left out
    elsewhere. *)

From Stdlib Require Import ZArith String Ascii.
From stdpp Require Import gmap strings list fin_maps fin_sets.

Open Scope Z_scope.

(** ** Exceptions, outcomes and the monad *)

(** The exception classes the two files raise, catch or let through.
    Everything here derives from Python's [Exception]. *)
Inductive exn : Type :=
| KeyError (key : string)
| IndexError
| TypeError
| AttributeError
| UnknownResourceType          (* aim.exceptions.UnknownResourceType *)
| OtherError (message : string).

Inductive outcome (A : Type) : Type :=
| Returned (a : A)
| Raised (e : exn).
Arguments Returned {A} a.
Arguments Raised {A} e.

#[global] Instance outcome_ret : MRet outcome := @Returned.
#[global] Instance outcome_bind : MBind outcome := fun A B k m =>
  match m with
  | Returned a => k a
  | Raised e => Raised e
  end.

Definition M (S A : Type) : Type := S -> outcome A * S.

#[global] Instance M_ret {S} : MRet (M S) := fun A a s => (Returned a, s).
#[global] Instance M_bind {S} : MBind (M S) := fun A B k m s =>
  match m s with
  | (Returned a, s') => k a s'
  | (Raised e, s') => (Raised e, s')
  end.

Definition raise {S A} (e : exn) : M S A := fun s => (Raised e, s).

(** A pure expression that may raise, evaluated inside a method. *)
Definition eval {S A} (o : outcome A) : M S A := fun s => (o, s).

Definition gets {S A} (f : S -> A) : M S A := fun s => (Returned (f s), s).

Definition modify {S} (f : S -> S) : M S unit := fun s => (Returned tt, f s).

(** [try: body except Exception as e: handler e]. *)
Definition try_except {S A} (body : M S A) (handler : exn -> M S A) : M S A :=
  fun s =>
    match body s with
    | (Returned a, s') => (Returned a, s')
    | (Raised e, s') => handler e s'
    end.

(** [for x in l: body x]. *)
Fixpoint for_each {S A} (l : list A) (body : A -> M S unit) : M S unit :=
  match l with
  | [] => mret tt
  | x :: l' => body x ;; for_each l' body
  end.

(** A [for] loop that carries its local variables [acc] from one iteration
    to the next. *)
Fixpoint for_fold {S A B} (l : list A) (acc : B) (body : B -> A -> M S B)
  : M S B :=
  match l with
  | [] => mret acc
  | x :: l' => acc' ← body acc x; for_fold l' acc' body
  end.

(** An expression that raises nothing but exceptions of [P]. *)
Definition raises_only {A} (P : exn -> Prop) (o : outcome A) : Prop :=
  match o with
  | Returned _ => True
  | Raised e => P e
  end.

(** ** Python strings and tuples *)

(** [s.find(sub)]: the index of the first occurrence, [-1] when there is
    none. *)
Definition py_find (sub s : string) : Z :=
  match String.index 0 sub s with
  | Some n => Z.of_nat n
  | None => -1
  end.

(** A slice bound as Python clips it: negative bounds count from the end. *)
Definition py_clip (len i : Z) : Z :=
  if i <? 0 then Z.max 0 (len + i) else Z.min i len.

(** [s[:stop]]. *)
Definition py_slice_to (s : string) (stop : Z) : string :=
  let len := Z.of_nat (String.length s) in
  String.substring 0 (Z.to_nat (py_clip len stop)) s.

(** [s[start:]]. *)
Definition py_slice_from (s : string) (start : Z) : string :=
  let len := Z.of_nat (String.length s) in
  let start' := py_clip len start in
  String.substring (Z.to_nat start') (Z.to_nat (len - start')) s.

(** [dict(pairs)]: later pairs overwrite earlier ones. *)
Definition py_dict (pairs : list (string * string)) : gmap string string :=
  foldl (fun d kv => <[kv.1 := kv.2]> d) ∅ pairs.

(** ** Data model *)

(** A resource key: a tuple of ["type|name"] segments, root first. *)
Abbreviation Key := (list string).

(** An AIM class: its name and its [identity_attributes]. *)
Record Klass : Type := {
  klass_name : string;
  identity_attributes : list string;
}.

(** The objects the universes hand around: instances of AIM classes (a
    class and the attributes set on the instance; faults are instances of
    [AciFault]) and ACI-format dictionaries
    [{aci_type: {'attributes': {'dn': dn}}}]. *)
Inductive Obj : Type :=
| Instance (klass : Klass) (attrs : gmap string string)
| AciDict (aci_type : string) (dn : string).

(** [getattr(o, x)]. *)
Definition getattr (o : Obj) (x : string) : outcome string :=
  match o with
  | Instance _ attrs =>
      match attrs !! x with
      | Some v => Returned v
      | None => Raised AttributeError
      end
  | AciDict _ _ => Raised AttributeError
  end.

(** [o.identity_attributes]. *)
Definition identity_attributes_of (o : Obj) : outcome (list string) :=
  match o with
  | Instance k _ => Returned (identity_attributes k)
  | AciDict _ _ => Raised AttributeError
  end.

(** [type(o).__name__]. *)
Definition type_name (o : Obj) : string :=
  match o with
  | Instance k _ => klass_name k
  | AciDict _ _ => "dict"%string
  end.

(** [[f(x) for x in l]] where [f] may raise. *)
Fixpoint comprehension {A B} (f : A -> outcome B) (l : list A)
  : outcome (list B) :=
  match l with
  | [] => Returned []
  | x :: l' => y ← f x; ys ← comprehension f l'; Returned (y :: ys)
  end.

(** ** The failure ledger ([HashTreeStoredUniverse], base_universe.py
    lines 319-367) *)

(** [aim.agent.aid.universes.errors]: the error kinds a caller reports.  The
    handlers are looked up with [dict.get(error, self._noop)], so any other
    value is accepted too. *)
Inductive error_kind : Type :=
| OPERATION_TRANSIENT
| UNKNOWN
| OPERATION_CRITICAL
| SYSTEM_CRITICAL
| OTHER_KIND (tag : string).

(** The part of a universe object the ledger mutates, and the world behind
    the AIM manager.  [failure_log] maps an object identifier to
    [(failures, last)]; timestamps are the values [time.time()] returned,
    taken as exact numbers of seconds. *)
Record ledger (World : Type) : Type := {
  failure_log : gmap (list string) (Z * Z);
  world : World;
}.
Arguments failure_log {World} _.
Arguments world {World} _.

(** A call on the manager, made from a method of the universe. *)
Definition in_world {World A : Type} (call : M World A) : M (ledger World) A :=
  fun s =>
    let (o, w) := call (world s) in
    (o, {| failure_log := failure_log s; world := w |}).

Definition update_failure_log {World : Type}
    (f : gmap (list string) (Z * Z) -> gmap (list string) (Z * Z))
  : M (ledger World) unit :=
  modify (fun s => {| failure_log := f (failure_log s); world := world s |}).

(** What [self.failure_log.get(aim_id, (0, None))] gives. *)
Definition recorded {World : Type} (s : ledger World) (aim_id : list string)
  : Z * option Z :=
  match failure_log s !! aim_id with
  | Some (n, t) => (n, Some t)
  | None => (0, None)
  end.

(** [(type(aim_object).__name__, ) + tuple([getattr(aim_object, x) for x in
    aim_object.identity_attributes])]. *)
Definition _get_aim_object_identifier (aim_object : Obj)
  : outcome (list string) :=
  attrs ← identity_attributes_of aim_object;
  values ← comprehension (getattr aim_object) attrs;
  Returned (type_name aim_object :: values).

(** [not last or curr_time - last >= retry_cooldown], where [last] is [None]
    or a number: Python's [not] holds of [None] and of zero alike. *)
Definition cooldown_elapsed (retry_cooldown curr_time : Z) (last : option Z)
  : bool :=
  match last with
  | None => true
  | Some t => (t =? 0) || (retry_cooldown <=? curr_time - t)
  end.

Section FailureLedger.
Context {World : Type}.
(** [self.manager.set_resource_sync_synced(self.context, aim_object)]. *)
Variable set_resource_sync_synced : Obj -> M World unit.
(** [self.manager.set_resource_sync_error(self.context, aim_object,
    message=reason)]. *)
Variable set_resource_sync_error : Obj -> string -> M World unit.
(** [utils.perform_harakiri(LOG, message=reason)]. *)
Variable perform_harakiri : string -> M World unit.
(** The options [initialize] read from the configuration manager. *)
Variables max_create_retry retry_cooldown : Z.

Definition creation_succeeded (aim_object : Obj) : M (ledger World) unit :=
  aim_id ← eval (_get_aim_object_identifier aim_object);
  update_failure_log (delete aim_id) ;;
  in_world (set_resource_sync_synced aim_object).

(** [curr_time] is what [time.time()] returns during the call.  The
    [LOG.warn] line leaves no trace in the ledger and is left out. *)
Definition _retry_until_max (curr_time : Z)
    (aim_object : Obj) (operation reason : string) : M (ledger World) unit :=
  aim_id ← eval (_get_aim_object_identifier aim_object);
  log ← gets failure_log;
  let '(failures, last) :=
    match log !! aim_id with
    | Some (n, t) => (n, Some t)
    | None => (0, None)
    end in
  if cooldown_elapsed retry_cooldown curr_time last then
    update_failure_log <[aim_id := (failures + 1, curr_time)]> ;;
    log' ← gets failure_log;
    match log' !! aim_id with
    | None => raise (KeyError "aim_id")
    | Some (n, _) =>
        if max_create_retry <=? n then
          in_world (set_resource_sync_error aim_object reason) ;;
          update_failure_log (delete aim_id)
        else mret tt
    end
  else mret tt.

Definition _surrender_operation
    (aim_object : Obj) (operation reason : string) : M (ledger World) unit :=
  aim_id ← eval (_get_aim_object_identifier aim_object);
  in_world (set_resource_sync_error aim_object reason) ;;
  update_failure_log (delete aim_id).

Definition _fail_agent
    (aim_object : Obj) (operation reason : string) : M (ledger World) unit :=
  in_world (perform_harakiri reason).

Definition _noop
    (aim_object : Obj) (operation reason : string) : M (ledger World) unit :=
  mret tt.

(** [self.error_handlers.get(error, self._noop)]. *)
Definition error_handlers (curr_time : Z) (error : error_kind)
  : Obj -> string -> string -> M (ledger World) unit :=
  match error with
  | OPERATION_TRANSIENT => _retry_until_max curr_time
  | UNKNOWN => _retry_until_max curr_time
  | OPERATION_CRITICAL => _surrender_operation
  | SYSTEM_CRITICAL => _fail_agent
  | OTHER_KIND _ => _noop
  end.

Definition _fail_aim_synchronization (curr_time : Z)
    (aim_object : Obj) (operation reason : string) (error : error_kind)
  : M (ledger World) unit :=
  error_handlers curr_time error aim_object operation reason.

Definition creation_failed (curr_time : Z)
    (aim_object : Obj) (reason : string) (error : error_kind)
  : M (ledger World) unit :=
  _fail_aim_synchronization curr_time aim_object "creation" reason error.

Definition deletion_failed (curr_time : Z)
    (aim_object : Obj) (reason : string) (error : error_kind)
  : M (ledger World) unit :=
  _fail_aim_synchronization curr_time aim_object "deletion" reason error.

End FailureLedger.

(** ** The hash-tree library, as the universes use it

    [aim.common.hashtree.structured_tree] is outside the two files; a
    universe reads a tree through the operations below and nothing else. *)

(** A tree node; of the root the reconciler reads only [dummy]. *)
Record TreeNode : Type := { dummy : bool }.

(** What [tree.diff(other)] returns: [{'add': [...], 'remove': [...]}]. *)
Record difference : Type := {
  add : list Key;
  remove : list Key;
}.

Class HashTree (Tree : Type) : Type := {
  (** [structured_tree.StructuredHashTree()]. *)
  empty_tree : Tree;
  (** [tree.root]: a node, or [None]. *)
  root : Tree -> option TreeNode;
  (** [tree.root_full_hash]: the hash, or [None] when the attribute access
      raises [AttributeError] (the tree has no root). *)
  root_full_hash : Tree -> option string;
  (** [tree.diff(other)]. *)
  diff : Tree -> Tree -> difference;
}.

(** [not tree.root]. *)
Definition no_root `{HashTree Tree} (tree : Tree) : bool :=
  match root tree with
  | None => true
  | Some _ => false
  end.

(** [not tree.root or tree.root.dummy]. *)
Definition no_root_or_dummy `{HashTree Tree} (tree : Tree) : bool :=
  match root tree with
  | None => true
  | Some node => dummy node
  end.

(** ** Universes and the reconciler ([HashTreeStoredUniverse],
    base_universe.py lines 208-317) *)

Definition CREATE : string := "create".
Definition DELETE : string := "delete".

(** A universe as [_reconcile] sees it: an object identity (what membership
    of [self] in a Python set compares) and the methods a subclass provides.
    [W] is the world the methods act on; [R] is what hydration returns (a
    list of resources in [AimDbUniverse], [None] where the method is left as
    [pass]).  A map handed to [push_resources] is the list of its items in
    iteration order. *)
Record Universe (Tree W R : Type) : Type := {
  universe_id : positive;
  name : string;
  state : M W (gmap string Tree);
  get_optimized_state : gmap string Tree -> M W (gmap string Tree);
  get_resources : list Key -> M W R;
  get_resources_for_delete : list Key -> M W R;
  push_resources : list (string * R) -> M W unit;
}.
Arguments universe_id {Tree W R} _.
Arguments name {Tree W R} _.
Arguments state {Tree W R} _.
Arguments get_optimized_state {Tree W R} _ _.
Arguments get_resources {Tree W R} _ _.
Arguments get_resources_for_delete {Tree W R} _ _.
Arguments push_resources {Tree W R} _ _.

(** What one [reconcile] call can mutate: the world, the [delete_candidates]
    dictionary it was handed, and (kept for the statements only) the list of
    the [push_resources] calls made so far, each with its receiver and its
    argument. *)
Record reconciliation (W R : Type) : Type := {
  rworld : W;
  delete_candidates : gmap string (gset positive);
  pushes : list (positive * list (string * R));
}.
Arguments rworld {W R} _.
Arguments delete_candidates {W R} _.
Arguments pushes {W R} _.

Definition in_rworld {W R A : Type} (call : M W A) : M (reconciliation W R) A :=
  fun s =>
    let (o, w) := call (rworld s) in
    (o, {| rworld := w; delete_candidates := delete_candidates s;
           pushes := pushes s |}).

Definition update_candidates {W R : Type}
    (f : gmap string (gset positive) -> gmap string (gset positive))
  : M (reconciliation W R) unit :=
  modify (fun s => {| rworld := rworld s;
                      delete_candidates := f (delete_candidates s);
                      pushes := pushes s |}).

(** [receiver.push_resources(resources)], noted in [pushes]. *)
Definition call_push_resources {Tree W R : Type}
    (receiver : Universe Tree W R) (resources : list (string * R))
  : M (reconciliation W R) unit :=
  modify (fun s => {| rworld := rworld s;
                      delete_candidates := delete_candidates s;
                      pushes := pushes s ++ [(universe_id receiver, resources)] |}) ;;
  in_rworld (push_resources receiver resources).

(** [d[k]]. *)
Definition subscript {V : Type} (d : gmap string V) (k : string) : outcome V :=
  match d !! k with
  | Some v => Returned v
  | None => Raised (KeyError k)
  end.

Section Reconciler.
Context {Tree W R : Type} `{HashTree Tree}.

(** [votes = delete_candidates.setdefault(tenant, set()); votes.add(self)]. *)
Definition _vote_tenant_for_deletion
    (self other_universe : Universe Tree W R) (tenant : string)
  : M (reconciliation W R) unit :=
  update_candidates (fun candidates =>
    <[tenant := {[universe_id self]} ∪ default ∅ (candidates !! tenant)]>
      candidates).

(** [delete_candidates.get(tenant, set()).discard(self)]: without an entry
    for [tenant] the fresh set is dropped and the dictionary stays as it
    is. *)
Definition discard_vote (self : Universe Tree W R) (tenant : string)
  : M (reconciliation W R) unit :=
  update_candidates (alter (fun votes => votes ∖ {[universe_id self]}) tenant).

(** The first loop of [_reconcile]: the body for one tenant of
    [set(my_state.keys()) & set(other_state.keys())]. *)
Definition accumulate_difference
    (my_state other_state : gmap string Tree)
    (result : list Key * list Key) (tenant : string)
  : M (reconciliation W R) (list Key * list Key) :=
  tree ← eval (subscript other_state tenant);
  let my_tenant_state := default empty_tree (my_state !! tenant) in
  let difference := diff tree my_tenant_state in
  mret (result.1 ++ add difference, result.2 ++ remove difference).

(** The second loop: the body for one item of [my_state.iteritems()]. *)
Definition vote_on_tenant (self other_universe : Universe Tree W R)
    (skip_dummy always_vote_deletion : bool)
    (other_state : gmap string Tree) (item : string * Tree)
  : M (reconciliation W R) unit :=
  let '(tenant, tree) := item in
  if always_vote_deletion || (skip_dummy && no_root_or_dummy tree) then
    _vote_tenant_for_deletion self other_universe tenant
  else if no_root tree then
    if match other_state !! tenant with
       | None => true
       | Some other_tree => no_root other_tree
       end
    then _vote_tenant_for_deletion self other_universe tenant
    else discard_vote self tenant
  else mret tt.

(** [result] is the pair of [result[CREATE]] and [result[DELETE]].  The
    dictionary handed to [push_resources] has the two keys; it is given
    here with [CREATE] first. *)
Definition _reconcile (self other_universe : Universe Tree W R)
    (skip_dummy always_vote_deletion : bool) : M (reconciliation W R) bool :=
  my_state ← in_rworld (state self);
  other_state ← in_rworld (get_optimized_state other_universe my_state);
  result ← for_fold
    (elements ((dom my_state : gset string) ∩ dom other_state)) ([], [])
    (accumulate_difference my_state other_state);
  for_each (map_to_list my_state)
    (vote_on_tenant self other_universe skip_dummy always_vote_deletion
       other_state) ;;
  match result with
  | ([], []) => mret false
  | (to_create, to_delete) =>
      created ← in_rworld (get_resources other_universe to_create);
      deleted ← in_rworld (get_resources_for_delete self to_delete);
      call_push_resources self [(CREATE, created); (DELETE, deleted)] ;;
      mret true
  end.

Definition reconcile (self other_universe : Universe Tree W R)
  : M (reconciliation W R) bool :=
  _reconcile self other_universe false false.

(** The single-key methods [HashTreeStoredUniverse] defines on top of the
    batch methods of the subclass. *)
Definition get_resource_for_delete (self : Universe Tree W R)
    (resource_key : Key) : M W R :=
  get_resources_for_delete self [resource_key].

Definition get_resource (self : Universe Tree W R) (resource_key : Key)
  : M W R :=
  get_resources self [resource_key].

(** *** Vocabulary of the statements about [_reconcile] *)

(** The state with the candidates, or the world, replaced. *)
Definition with_candidates
    (f : gmap string (gset positive) -> gmap string (gset positive))
    (s : reconciliation W R) : reconciliation W R :=
  {| rworld := rworld s; delete_candidates := f (delete_candidates s);
     pushes := pushes s |}.

Definition with_world (w : W) (s : reconciliation W R)
  : reconciliation W R :=
  {| rworld := w; delete_candidates := delete_candidates s;
     pushes := pushes s |}.

(** [theirs.diff(mine)] for one tenant of the intersection. *)
Definition tenant_difference (my_state other_state : gmap string Tree)
    (tenant : string)
  : difference :=
  match other_state !! tenant with
  | Some tree => diff tree (default empty_tree (my_state !! tenant))
  | None => {| add := []; remove := [] |}
  end.

(** The tenants the first loop visits, in the order it visits them. *)
Definition common_tenants (my_state other_state : gmap string Tree)
  : list string :=
  elements ((dom my_state : gset string) ∩ dom other_state).

(** What the second loop does to the entry of one tenant of [my_state]. *)
Definition vote_entry (self : Universe Tree W R)
    (skip_dummy always_vote_deletion : bool)
    (other_state : gmap string Tree) (tenant : string) (tree : Tree)
    (votes : option (gset positive)) : option (gset positive) :=
  if always_vote_deletion || (skip_dummy && no_root_or_dummy tree) then
    Some ({[universe_id self]} ∪ default ∅ votes)
  else if no_root tree then
    if match other_state !! tenant with
       | None => true
       | Some other_tree => no_root other_tree
       end
    then Some ({[universe_id self]} ∪ default ∅ votes)
    else (fun v => v ∖ {[universe_id self]}) <$> votes
  else votes.

(** The candidates after the second loop over the items [l]. *)
Definition voted (self : Universe Tree W R)
    (skip_dummy always_vote_deletion : bool) (other_state : gmap string Tree)
    (l : list (string * Tree)) (candidates : gmap string (gset positive))
  : gmap string (gset positive) :=
  foldl (fun c item =>
           partial_alter
             (vote_entry self skip_dummy always_vote_deletion other_state
                item.1 item.2) item.1 c)
        candidates l.

End Reconciler.

(** ** [AimDbUniverse] (aim_universe.py) *)

Definition ACI_FAULT : string := "faultInst".

(** [isinstance(resource, aim_status.AciFault)]. *)
Definition is_AciFault (resource : Obj) : bool :=
  match resource with
  | Instance k _ => String.eqb (klass_name k) "AciFault"
  | AciDict _ _ => false
  end.

(** One element of an identity tuple: a pair [(attribute, value)], or one of
    the two strings ['fault'] and the fault code that [id_tuple +=
    ('fault', fault_code)] appends. *)
Abbreviation id_elem := (string * string + string)%type.
Abbreviation id_tuple := (list id_elem).

(** The warnings and errors the universe logs ([LOG.debug] lines are not
    recorded). *)
Inductive log_record : Type :=
| (** [LOG.warn("Resource %s is not defined in AIM", dissected)] *)
  Warn_not_defined (dissected : string * list string)
| (** [LOG.error("Failed to %s object %s in AIM: %s." % (method, item,
      e.message))] *)
  Error_failed (method : string) (item : Obj) (e : exn).

(** The universe object's mutable part and the world behind the manager. *)
Record aim_db (World : Type) : Type := {
  db : World;
  LOG : list log_record;
  _served_tenants : gset string;
}.
Arguments db {World} _.
Arguments LOG {World} _.
Arguments _served_tenants {World} _.

Definition in_db {World A : Type} (call : M World A) : M (aim_db World) A :=
  fun s =>
    let (o, w) := call (db s) in
    (o, {| db := w; LOG := LOG s; _served_tenants := _served_tenants s |}).

(** The state once a record was appended to the log. *)
Definition logged {World : Type} (record : log_record) (s : aim_db World)
  : aim_db World :=
  {| db := db s; LOG := LOG s ++ [record];
     _served_tenants := _served_tenants s |}.

(** A computation that leaves the log as it found it. *)
Definition keeps_log {World A : Type} (m : M (aim_db World) A) : Prop :=
  forall s, LOG (m s).2 = LOG s.

Definition log_append {World : Type} (record : log_record)
  : M (aim_db World) unit :=
  modify (logged record).

(** [HashTreeStoredUniverse._dissect_key]: [('apicType', [identity list])]. *)
Definition _dissect_key (key : Key) : outcome (string * list string) :=
  match last key with
  | None => Raised IndexError
  | Some leaf =>
      Returned (py_slice_to leaf (py_find "|" leaf),
                map (fun x => py_slice_from x (py_find "|" x + 1)) key)
  end.

(** [dict([(y, ids[x]) for x, y in enumerate(attributes)])] as a list of
    pairs: [ids[x]] raises when [ids] is too short. *)
Fixpoint identity_kwargs (attributes ids : list string)
  : outcome (list (string * string)) :=
  match attributes, ids with
  | [], _ => Returned []
  | y :: attributes', v :: ids' =>
      kwargs ← identity_kwargs attributes' ids'; Returned ((y, v) :: kwargs)
  | _ :: _, [] => Raised IndexError
  end.

(** [if fault_code:] holds of a string that is not empty. *)
Definition truthy (fault_code : option string) : bool :=
  match fault_code with
  | Some code => negb (String.eqb code "")
  | None => false
  end.

(** The scan of [res_status.faults] for the fault with the code wanted. *)
Fixpoint find_fault (fault_code : string) (faults : list Obj)
  : outcome (option Obj) :=
  match faults with
  | [] => Returned None
  | fault :: faults' =>
      code ← getattr fault "fault_code";
      if String.eqb code fault_code then Returned (Some fault)
      else find_fault fault_code faults'
  end.

(** Any exception but [UnknownResourceType]. *)
Definition not_unknown_type (e : exn) : Prop := e <> UnknownResourceType.

(** What the loop of [get_resources] computes from a key before it touches
    [id_set]. *)
Record resolved : Type := {
  r_fault_code : option string;
  r_dissected : string * list string;
  r_res : Obj;
  r_id_tuple : id_tuple;
}.

(** The accumulator once [found] was appended under the identity of [r]. *)
Definition emitted (r : resolved) (found : Obj)
    (acc : list Obj * gset id_tuple) : list Obj * gset id_tuple :=
  (acc.1 ++ [found], {[r_id_tuple r]} ∪ acc.2).

Section AimDbUniverse.
Context {Tree World : Type} `{HashTree Tree}.
(** [converter.resource_map]: per ACI type, the list of entries, each
    read only at ['resource']. *)
Variable resource_map : gmap string (list Klass).
(** [self.manager.get(self.context, res)]: the stored resource or [None]. *)
Variable manager_get : Obj -> M World (option Obj).
(** [self.manager.get_status(self.context, res)]: [None], or a status, of
    which only [.faults] is read. *)
Variable manager_get_status : Obj -> M World (option (list Obj)).
(** [self.manager.create(self.context, resource, overwrite=True)] and
    [self.manager.delete(self.context, resource)]. *)
Variable manager_create manager_delete : Obj -> M World unit.
(** [self.manager.set_fault(self.context, resource=parent, fault=fault)]
    and [clear_fault], by parent and fault. *)
Variable manager_set_fault manager_clear_fault : Obj -> Obj -> M World unit.
(** [self._converter.convert(items)]. *)
Variable convert : list Obj -> M World (list Obj).
(** [apic_client.DNManager().aci_decompose_with_type(dn, aci_type)]. *)
Variable aci_decompose_with_type :
  string -> string -> outcome (list (string * string)).
(** [apic_client.ManagedObjectClass(aci_type).dn] applied to the names. *)
Variable mo_dn : string -> list string -> outcome string.
(** [self.tree_manager.find_changed(self.context, request,
    operational=operational)]. *)
Variable find_changed :
  gmap string (option string) -> bool -> M World (gmap string Tree).

Definition serve (tenants : list string) : M (aim_db World) unit :=
  modify (fun s => {| db := db s; LOG := LOG s;
                      _served_tenants := list_to_set tenants |}).

(** The body of the loop of [get_optimized_state] for one tenant. *)
Definition request_tenant (other_state : gmap string Tree)
    (request : gmap string (option string)) (tenant : string)
  : gmap string (option string) :=
  let request := <[tenant := None]> request in
  match other_state !! tenant with
  | Some tree =>
      match root_full_hash tree with
      | Some h => <[tenant := Some h]> request
      | None => <[tenant := None]> request
      end
  | None => request
  end.

(** The [request] dictionary [get_optimized_state] hands to
    [find_changed]. *)
Definition optimized_request (served : gset string)
    (other_state : gmap string Tree) : gmap string (option string) :=
  foldl (request_tenant other_state) ∅ (elements served).

Definition AimDb_get_optimized_state (other_state : gmap string Tree)
    (operational : bool) : M (aim_db World) (gmap string Tree) :=
  served ← gets _served_tenants;
  in_db (find_changed (optimized_request served other_state) operational).

Definition _get_state (operational : bool)
  : M (aim_db World) (gmap string Tree) :=
  served ← gets _served_tenants;
  in_db (find_changed (gset_to_gmap None served) operational).

(** The loop body of [get_resources] up to the test on [id_set]. *)
Definition resolve_key (key : Key) : outcome resolved :=
  dissected ← _dissect_key key;
  '(fault_code, dissected) ←
    (if String.eqb dissected.1 ACI_FAULT then
       match last dissected.2 with
       | None => Raised IndexError
       | Some code =>
           parent ← _dissect_key (removelast key);
           Returned (Some code, parent)
       end
     else Returned (None, dissected));
  entries ← subscript resource_map dissected.1;
  klass ← match entries with
          | [] => Raised IndexError
          | entry :: _ => Returned entry
          end;
  kwargs ← identity_kwargs (identity_attributes klass) dissected.2;
  let res := Instance klass (py_dict kwargs) in
  attributes ← identity_attributes_of res;
  pairs ← comprehension
    (fun x => v ← getattr res x; Returned (inl (x, v) : id_elem)) attributes;
  let id_tuple :=
    match fault_code with
    | Some code =>
        if truthy fault_code then pairs ++ [inr "fault"; inr code] else pairs
    | None => pairs
    end in
  Returned {| r_fault_code := fault_code; r_dissected := dissected;
              r_res := res; r_id_tuple := id_tuple |}.

(** The lookup inside [try:], giving [res_db]. *)
Definition lookup_resource (r : resolved) : M (aim_db World) (option Obj) :=
  match r_fault_code r with
  | Some code =>
      if truthy (r_fault_code r) then
        res_status ← in_db (manager_get_status (r_res r));
        match res_status with
        | Some faults => eval (find_fault code faults)
        | None => mret None
        end
      else in_db (manager_get (r_res r))
  | None => in_db (manager_get (r_res r))
  end.

(** One iteration of the loop of [get_resources]; [acc] is
    [(result, id_set)]. *)
Definition get_resources_step (acc : list Obj * gset id_tuple) (key : Key)
  : M (aim_db World) (list Obj * gset id_tuple) :=
  r ← eval (resolve_key key);
  if decide (r_id_tuple r ∈ acc.2) then mret acc
  else
    try_except
      (res_db ← lookup_resource r;
       match res_db with
       | Some found => mret (acc.1 ++ [found], {[r_id_tuple r]} ∪ acc.2)
       | None => mret acc
       end)
      (fun e =>
         match e with
         | UnknownResourceType =>
             log_append (Warn_not_defined (r_dissected r)) ;;
             mret (acc.1 ++ [r_res r], {[r_id_tuple r]} ∪ acc.2)
         | _ => raise e
         end).

Definition get_resources_loop (keys : list Key)
    (acc : list Obj * gset id_tuple)
  : M (aim_db World) (list Obj * gset id_tuple) :=
  for_fold keys acc get_resources_step.

Definition AimDb_get_resources (resource_keys : list Key)
  : M (aim_db World) (list Obj) :=
  acc ← get_resources_loop resource_keys ([], ∅);
  mret acc.1.

Definition AimDb_get_resources_for_delete (resource_keys : list Key)
  : M (aim_db World) (list Obj) :=
  AimDb_get_resources resource_keys.

(** [fault_method[method]]. *)
Definition fault_method (method : string)
  : outcome (Obj -> Obj -> M World unit) :=
  if String.eqb method "create" then Returned manager_set_fault
  else if String.eqb method "delete" then Returned manager_clear_fault
  else Raised (KeyError method).

Definition _retrieve_fault_parent (fault : Obj) : M (aim_db World) Obj :=
  external ← eval (getattr fault "external_identifier");
  decomposed ← eval (aci_decompose_with_type external ACI_FAULT);
  let decomposed := removelast decomposed in
  match last decomposed with
  | None => raise IndexError
  | Some parent_segment =>
      dn ← eval (mo_dn parent_segment.1 (map snd decomposed));
      converted ← in_db (convert [AciDict parent_segment.1 dn]);
      match converted with
      | [] => raise IndexError
      | parent :: _ => mret parent
      end
  end.

(** The body of [try:] in [push_resources], for one item. *)
Definition push_item (method : string) (item : Obj) : M (aim_db World) unit :=
  converted ← (if String.eqb method "delete" then mret [item]
               else in_db (convert [item]));
  for_each converted (fun resource =>
    if is_AciFault resource then
      parent ← _retrieve_fault_parent resource;
      apply_fault ← eval (fault_method method);
      in_db (apply_fault parent resource)
    else
      (* the LOG.debug line reads fault_method[method].__name__ *)
      _ ← eval (fault_method method);
      if String.eqb method "create" then in_db (manager_create resource)
      else in_db (manager_delete resource)).

(** One item of a bucket: the [try] and its [except Exception], whose
    handler logs the method, the item and [e.message] (an attribute every
    exception has in Python 2). *)
Definition push_guarded (method : string) (item : Obj)
  : M (aim_db World) unit :=
  try_except (push_item method item)
    (fun e => log_append (Error_failed method item e)).

Definition AimDb_push_resources (resources : list (string * list Obj))
  : M (aim_db World) unit :=
  for_each resources (fun bucket =>
    for_each bucket.2 (push_guarded bucket.1)).

(** [AimDbUniverse] as a universe: the methods the class defines, with
    [state] and [get_optimized_state] not operational. *)
Definition AimDbUniverse (id : positive)
  : Universe Tree (aim_db World) (list Obj) :=
  {| universe_id := id;
     name := "AimDbUniverse";
     state := _get_state false;
     get_optimized_state := fun other_state =>
       AimDb_get_optimized_state other_state false;
     get_resources := AimDb_get_resources;
     get_resources_for_delete := AimDb_get_resources_for_delete;
     push_resources := AimDb_push_resources |}.

(** *** Vocabulary of the statements about [get_resources] *)

(** The object [o] is what the key resolved to [r] was hydrated into: the
    shell itself, or what the lookup of [r] returned in some state. *)
Definition hydrated_from (r : resolved) (o : Obj) : Prop :=
  o = r_res r \/
  exists s s' : aim_db World, lookup_resource r s = (Returned (Some o), s').

(** [o] was hydrated from a key of [keys] whose identity tuple is [i]. *)
Definition identified (keys : list Key) (i : id_tuple) (o : Obj) : Prop :=
  exists key r,
    key ∈ keys /\ resolve_key key = Returned r /\ r_id_tuple r = i /\
    hydrated_from r o.

(** The loop invariant: the resources collected so far stand under
    pairwise distinct identity tuples, all of them in [id_set]. *)
Definition distinct_identities (keys : list Key)
    (acc : list Obj * gset id_tuple) : Prop :=
  exists ids : list id_tuple,
    NoDup ids /\ (forall i, i ∈ ids -> i ∈ acc.2) /\
    Forall2 (identified keys) ids acc.1.

(** *** Vocabulary of the statements about [push_resources] *)

(** The items of a map with their method, in the order [push_resources]
    visits them. *)
Definition items_of (resources : list (string * list Obj))
  : list (string * Obj) :=
  flat_map (fun bucket => map (pair bucket.1) bucket.2) resources.

(** The state after the guarded body ran for every item of [items],
    whether it raised or not. *)
Fixpoint attempted (items : list (string * Obj)) (s : aim_db World)
  : aim_db World :=
  match items with
  | [] => s
  | (method, item) :: rest =>
      attempted rest
        match push_item method item s with
        | (Returned _, s1) => s1
        | (Raised e, s1) => logged (Error_failed method item e) s1
        end
  end.

End AimDbUniverse.

(** ** [initialize]

    A method called with the wrong number of arguments raises [TypeError]
    before its body runs, so each [initialize] takes the list of the
    positional arguments that follow [self].  (Keyword calls are not
    modelled.) *)

(** The attributes [initialize] sets on the universe object.  [PyObject] is
    the type of the values handed in (stores, sessions, configuration
    managers). *)
Record universe_object (PyObject : Type) : Type := {
  object_id : positive;
  (** [self.context]: the store the [AimContext] was made of. *)
  context : option PyObject;
  (** [self.conf_manager]. *)
  conf_manager : option PyObject;
  (** [self.max_create_retry] and [self.retry_cooldown]. *)
  option_max_create_retry : option Z;
  option_retry_cooldown : option Z;
  (** [self._state = {}] and [self.failure_log = {}] were run. *)
  state_emptied : bool;
  (** [tree_manager], [_converter] and [_served_tenants] were set. *)
  aim_db_attributes : bool;
}.
Arguments object_id {PyObject} _.
Arguments context {PyObject} _.
Arguments conf_manager {PyObject} _.
Arguments option_max_create_retry {PyObject} _.
Arguments option_retry_cooldown {PyObject} _.
Arguments state_emptied {PyObject} _.
Arguments aim_db_attributes {PyObject} _.

Section Initialize.
Context {PyObject : Type}.
(** [conf_mgr.get_option(name, group)]. *)
Variable get_option : PyObject -> string -> string -> outcome Z.

(** [BaseUniverse.initialize(self, store, conf_mgr)]: the abstract
    method, whose body is its docstring. *)
Definition BaseUniverse_initialize (args : list PyObject)
  : M (universe_object PyObject) unit :=
  match args with
  | [store; conf_mgr] => mret tt
  | _ => raise TypeError
  end.

(** [HashTreeStoredUniverse.initialize(self, store, conf_mgr)]; the value
    returned is [self], given by its identity. *)
Definition HashTreeStoredUniverse_initialize (args : list PyObject)
  : M (universe_object PyObject) positive :=
  match args with
  | [store; conf_mgr] =>
      BaseUniverse_initialize [store; conf_mgr] ;;
      modify (fun o =>
        {| object_id := object_id o;
           context := Some store;
           conf_manager := Some conf_mgr;
           option_max_create_retry := option_max_create_retry o;
           option_retry_cooldown := option_retry_cooldown o;
           state_emptied := true;
           aim_db_attributes := aim_db_attributes o |}) ;;
      max ← eval (get_option conf_mgr "max_operation_retry" "aim");
      modify (fun o =>
        {| object_id := object_id o;
           context := context o;
           conf_manager := conf_manager o;
           option_max_create_retry := Some max;
           option_retry_cooldown := option_retry_cooldown o;
           state_emptied := state_emptied o;
           aim_db_attributes := aim_db_attributes o |}) ;;
      cooldown ← eval (get_option conf_mgr "retry_cooldown" "aim");
      modify (fun o =>
        {| object_id := object_id o;
           context := context o;
           conf_manager := conf_manager o;
           option_max_create_retry := option_max_create_retry o;
           option_retry_cooldown := Some cooldown;
           state_emptied := state_emptied o;
           aim_db_attributes := aim_db_attributes o |}) ;;
      gets object_id
  | _ => raise TypeError
  end.

(** [AimDbUniverse.initialize(self, db_session)]. *)
Definition AimDbUniverse_initialize (args : list PyObject)
  : M (universe_object PyObject) positive :=
  match args with
  | [db_session] =>
      HashTreeStoredUniverse_initialize [db_session] ;;
      modify (fun o =>
        {| object_id := object_id o;
           context := Some db_session;
           conf_manager := conf_manager o;
           option_max_create_retry := option_max_create_retry o;
           option_retry_cooldown := option_retry_cooldown o;
           state_emptied := state_emptied o;
           aim_db_attributes := true |}) ;;
      gets object_id
  | _ => raise TypeError
  end.

End Initialize.

(** ** Further definitions *)

(** *** The calls on the failure ledger *)

(** A public operation of the ledger, with the clock reading of the call. *)
Inductive ledger_call : Type :=
| Creation_succeeded (aim_object : Obj)
| Creation_failed (curr_time : Z) (aim_object : Obj) (reason : string)
    (error : error_kind)
| Deletion_failed (curr_time : Z) (aim_object : Obj) (reason : string)
    (error : error_kind).

Definition call_object (c : ledger_call) : Obj :=
  match c with
  | Creation_succeeded o => o
  | Creation_failed _ o _ _ => o
  | Deletion_failed _ o _ _ => o
  end.

(** Every stored failure count is below the maximum. *)
Definition counts_below {World : Type} (max : Z) (s : ledger World) : Prop :=
  forall id n t, failure_log s !! id = Some (n, t) -> n < max.

Section LedgerCalls.
Context {World : Type}.
Variable set_resource_sync_synced : Obj -> M World unit.
Variable set_resource_sync_error : Obj -> string -> M World unit.
Variable perform_harakiri : string -> M World unit.
Variables max_create_retry retry_cooldown : Z.

(** The method a call runs, on a universe with the given configuration. *)
Definition run_call (c : ledger_call) : M (ledger World) unit :=
  match c with
  | Creation_succeeded o => creation_succeeded set_resource_sync_synced o
  | Creation_failed t o reason error =>
      creation_failed set_resource_sync_error perform_harakiri
        max_create_retry retry_cooldown t o reason error
  | Deletion_failed t o reason error =>
      deletion_failed set_resource_sync_error perform_harakiri
        max_create_retry retry_cooldown t o reason error
  end.
End LedgerCalls.

(** *** Well-formed keys *)

(** The bar does not occur in [s]. *)
Definition no_bar (s : string) : Prop := String.index 0 "|" s = None.

(** The segment ["type|name"]. *)
Definition segment (type_and_name : string * string) : string :=
  String.append type_and_name.1 (String "|" type_and_name.2).

(** *** Identity tuples *)

(** The strings that [id_tuple += ('fault', fault_code)] appended to an
    identity tuple. *)
Definition fault_part (i : id_tuple) : list string :=
  omap (fun e : id_elem => match e with inr x => Some x | inl _ => None end) i.

(** *** [AimDbOperationalUniverse] *)

Section AimDbOperationalUniverse.
Context {Tree : Type} `{HashTree Tree} {World : Type}.
Variable resource_map : gmap string (list Klass).
Variable manager_get : Obj -> M World (option Obj).
Variable manager_get_status : Obj -> M World (option (list Obj)).
Variable manager_create manager_delete : Obj -> M World unit.
Variable manager_set_fault manager_clear_fault : Obj -> Obj -> M World unit.
Variable convert : list Obj -> M World (list Obj).
Variable aci_decompose_with_type :
  string -> string -> outcome (list (string * string)).
Variable mo_dn : string -> list string -> outcome string.
Variable find_changed :
  gmap string (option string) -> bool -> M World (gmap string Tree).

(** [AimDbOperationalUniverse]: [AimDbUniverse] with [state] and
    [get_optimized_state] overridden to ask for the operational trees. *)
Definition AimDbOperationalUniverse (id : positive)
  : Universe Tree (aim_db World) (list Obj) :=
  let base :=
    AimDbUniverse resource_map manager_get manager_get_status
      manager_create manager_delete manager_set_fault manager_clear_fault
      convert aci_decompose_with_type mo_dn find_changed id in
  {| universe_id := universe_id base;
     name := name base;
     state := _get_state find_changed true;
     get_optimized_state := fun other_state =>
       AimDb_get_optimized_state find_changed other_state true;
     get_resources := get_resources base;
     get_resources_for_delete := get_resources_for_delete base;
     push_resources := push_resources base |}.

End AimDbOperationalUniverse.


(** *** The clock of the ledger *)




(** *** What it is for an item to be processed

    Stated from the specification (section 4.5, steps 1 and 2), not from
    [push_resources]: the conversions and the manager calls an item stands
    for, as a relation between the world before and the world after.  The
    theorems on [push_resources] compare the code with it. *)

(** The universe object with another world behind it. *)
Definition with_db {World : Type} (w : World) (s : aim_db World)
  : aim_db World :=
  {| db := w; LOG := LOG s; _served_tenants := _served_tenants s |}.

Section ItemsApplied.
Context {World : Type}.
Variable manager_create manager_delete : Obj -> M World unit.
Variable manager_set_fault manager_clear_fault : Obj -> Obj -> M World unit.
Variable convert : list Obj -> M World (list Obj).
Variable aci_decompose_with_type :
  string -> string -> outcome (list (string * string)).
Variable mo_dn : string -> list string -> outcome string.

(** The parent of a fault is recovered: the fault's [external_identifier]
    is decomposed, the fault segment trimmed, the DN of the parent rebuilt
    from what is left and run through the converter, of whose result the
    first resource is the parent. *)
Definition parent_recovered (fault parent : Obj) (w w' : World) : Prop :=
  exists external segments parent_type parent_name dn others,
    getattr fault "external_identifier" = Returned external /\
    aci_decompose_with_type external ACI_FAULT = Returned segments /\
    last (removelast segments) = Some (parent_type, parent_name) /\
    mo_dn parent_type (map snd (removelast segments)) = Returned dn /\
    convert [AciDict parent_type dn] w = (Returned (parent :: others), w').

(** A native resource is applied: a fault is set on its parent under
    [create] and cleared from it under [delete]; any other resource is
    created under [create] and deleted under [delete]; the manager call
    returns. *)
Definition resource_applied (method : string) (resource : Obj)
    (w w' : World) : Prop :=
  if is_AciFault resource then
    exists parent w1,
      parent_recovered resource parent w w1 /\
      ((method = "create"%string /\
        manager_set_fault parent resource w1 = (Returned tt, w')) \/
       (method = "delete"%string /\
        manager_clear_fault parent resource w1 = (Returned tt, w')))
  else
    (method = "create"%string /\
     manager_create resource w = (Returned tt, w')) \/
    (method = "delete"%string /\
     manager_delete resource w = (Returned tt, w')).

Fixpoint resources_applied (method : string) (resources : list Obj)
    (w w' : World) : Prop :=
  match resources with
  | [] => w' = w
  | resource :: rest =>
      exists w1,
        resource_applied method resource w w1 /\
        resources_applied method rest w1 w'
  end.

(** An item is processed: under [delete] it is native already and is
    applied as it is; under [create] it is converted and every resource
    that comes out is applied, in order. *)
Definition item_applied (method : string) (item : Obj) (w w' : World)
  : Prop :=
  (method = "delete"%string /\ resources_applied method [item] w w') \/
  (method = "create"%string /\
   exists converted w1,
     convert [item] w = (Returned converted, w1) /\
     resources_applied method converted w1 w').

(** The items of a list are processed in turn. *)
Fixpoint items_applied (items : list (string * Obj)) (w w' : World) : Prop :=
  match items with
  | [] => w' = w
  | (method, item) :: rest =>
      exists w1, item_applied method item w w1 /\ items_applied rest w1 w'
  end.

End ItemsApplied.

(** *** The batch method [HashTreeStoredUniverse] defines itself *)

(** [HashTreeStoredUniverse.get_resources_for_delete(resource_keys)]: the
    body is [pass], so the call returns [None], where a subclass that
    overrides the method returns a value [R]. *)
Definition HashTreeStoredUniverse_get_resources_for_delete {W R : Type}
    (resource_keys : list Key) : M W (option R) :=
  mret None.


(** ** Concrete collaborators for the scenarios *)

(** Modelled from the spec: the AIM manager's sync-state markers
    ([set_resource_sync_synced], [set_resource_sync_error]) and the abort
    primitive are not in the two files; this manager returns normally from
    every call and keeps the list of the calls made on it. *)
Inductive manager_call : Type :=
| Set_sync_synced (o : Obj)
| Set_sync_error (o : Obj) (message : string)
| Harakiri (message : string).

Definition recording_sync_synced (o : Obj) : M (list manager_call) unit :=
  modify (fun calls => calls ++ [Set_sync_synced o]).

Definition recording_sync_error (o : Obj) (message : string)
  : M (list manager_call) unit :=
  modify (fun calls => calls ++ [Set_sync_error o message]).

Definition recording_harakiri (message : string) : M (list manager_call) unit :=
  modify (fun calls => calls ++ [Harakiri message]).

Definition BridgeDomain : Klass :=
  {| klass_name := "BridgeDomain";
     identity_attributes := ["tenant_name"; "name"]%string |}.

(** The bridge domain [bd1] of tenant [t1]. *)
Definition bd1 : Obj :=
  Instance BridgeDomain (py_dict [("tenant_name", "t1"); ("name", "bd1")]%string).

Definition bd1_id : list string := ["BridgeDomain"; "t1"; "bd1"]%string.

(** [creation_failed(bd1, 'timeout', OPERATION_TRANSIENT)] at time [t], with
    [max_operation_retry = 3] and [retry_cooldown = 10]. *)
Definition scenario_failed (t : Z) : M (ledger (list manager_call)) unit :=
  creation_failed recording_sync_error recording_harakiri 3 10 t
    bd1 "timeout" OPERATION_TRANSIENT.

Definition fresh_ledger : ledger (list manager_call) :=
  {| failure_log := ∅; world := [] |}.

(** Modelled from the spec: the hash tree of sections 4.1 and 6, which is
    not in the two files.  A tree is the list of the keys it holds; [diff]
    lists under [add] the keys of the receiver that the argument lacks and
    under [remove] the reverse; a tree without keys has no root and no root
    hash. *)
#[global] Instance key_list_tree : HashTree (list Key) := {|
  empty_tree := [];
  root tree := match tree with [] => None | _ => Some {| dummy := false |} end;
  root_full_hash tree :=
    match tree with
    | [] => None
    | _ => Some (String.concat "," (map (String.concat "/") tree))
    end;
  diff tree other_tree :=
    {| add := list_difference tree other_tree;
       remove := list_difference other_tree tree |};
|}.

(** Modelled from the spec: a universe that keeps its view in memory,
    hydrates a key into an ACI-format item naming it, and whose
    [push_resources] returns normally; its world is the list of the maps
    pushed to it. *)
Definition memory_universe (id : positive) (view : gmap string (list Key))
  : Universe (list Key) (list (list (string * list Obj))) (list Obj) :=
  {| universe_id := id;
     name := "memory";
     state := mret view;
     get_optimized_state := fun _ => mret view;
     get_resources := fun keys =>
       mret (map (fun key => AciDict "key" (String.concat "/" key)) keys);
     get_resources_for_delete := fun keys =>
       mret (map (fun key => AciDict "key" (String.concat "/" key)) keys);
     push_resources := fun resources => modify (fun w => w ++ [resources]) |}.

Definition bd1_key : Key := ["fvTenant|t1"; "fvBD|bd1"]%string.

(** The views of the scenarios of section 8: tenant [t1] with the bridge
    domain [bd1], tenant [t1] with an empty tree, and no tenant at all. *)
Definition view_bd1 : gmap string (list Key) := {[ "t1"%string := [bd1_key] ]}.
Definition view_empty_t1 : gmap string (list Key) := {[ "t1"%string := [] ]}.
Definition view_none : gmap string (list Key) := ∅.

(** A reconciliation that starts with the candidates given and no push. *)
Definition starting (candidates : gmap string (gset positive))
  : reconciliation (list (list (string * list Obj))) (list Obj) :=
  {| rworld := []; delete_candidates := candidates; pushes := [] |}.

(** Modelled from the spec: the intent store behind the AIM manager, the
    converter and the DN functions of section 6, none of which is in the
    two files.  This store knows bridge domains and faults, returns the
    resource asked for as stored, reports the fault [F0123] in every status,
    rejects the class [Exotic] with [UnknownResourceType] on [get] and with
    another error on [create], and keeps the list of the writes made. *)
Inductive store_write : Type :=
| Created (o : Obj)
| Deleted (o : Obj)
| Fault_set (parent fault : Obj)
| Fault_cleared (parent fault : Obj).

Definition Exotic : Klass :=
  {| klass_name := "Exotic"; identity_attributes := ["name"]%string |}.

Definition AciFault : Klass :=
  {| klass_name := "AciFault";
     identity_attributes := ["external_identifier"]%string |}.

Definition fault_F0123 : Obj :=
  Instance AciFault
    (py_dict [("fault_code", "F0123");
              ("external_identifier", "uni/tn-t1/BD-bd1/fault-F0123")]%string).

(** The shell of the [Exotic] resource [x1]. *)
Definition exotic_x1 : Obj := Instance Exotic (py_dict [("name", "x1")]%string).

Definition scenario_resource_map : gmap string (list Klass) :=
  <["fvBD"%string := [BridgeDomain]]> {[ "vzExotic"%string := [Exotic] ]}.

Definition is_exotic (o : Obj) : bool := String.eqb (type_name o) "Exotic".

Definition store_get (o : Obj) : M (list store_write) (option Obj) :=
  if is_exotic o then raise UnknownResourceType else mret (Some o).

Definition store_get_status (o : Obj)
  : M (list store_write) (option (list Obj)) :=
  mret (Some [fault_F0123]).

Definition store_create (o : Obj) : M (list store_write) unit :=
  if is_exotic o then raise (OtherError "rejected")
  else modify (fun w => w ++ [Created o]).

Definition store_delete (o : Obj) : M (list store_write) unit :=
  modify (fun w => w ++ [Deleted o]).

Definition store_set_fault (parent fault : Obj) : M (list store_write) unit :=
  modify (fun w => w ++ [Fault_set parent fault]).

Definition store_clear_fault (parent fault : Obj) : M (list store_write) unit :=
  modify (fun w => w ++ [Fault_cleared parent fault]).

(** The items of the scenarios are AIM objects already: the converter
    returns them as they are, except that the ACI parent of the fault is
    converted into [bd1]. *)
Definition scenario_convert (items : list Obj) : M (list store_write) (list Obj) :=
  mret (map (fun item => match item with
                         | AciDict _ _ => bd1
                         | _ => item
                         end) items).

Definition scenario_decompose (dn aci_type : string)
  : outcome (list (string * string)) :=
  Returned [("fvTenant", "t1"); ("fvBD", "bd1"); ("faultInst", "F0123")]%string.

Definition scenario_dn (aci_type : string) (names : list string)
  : outcome string :=
  Returned (String.concat "/" names).

Definition fresh_db : aim_db (list store_write) :=
  {| db := []; LOG := []; _served_tenants := ∅ |}.

Definition exotic_key : Key := ["vzExotic|x1"]%string.
Definition unmapped_key : Key := ["fvTenant|t1"; "vzAny|a"]%string.
Definition fault_key : Key :=
  ["fvTenant|t1"; "fvBD|bd1"; "faultInst|F0123"]%string.

(** [get_resources] and [push_resources] of an [AimDbUniverse] on this
    store. *)
Definition scenario_get_resources
  : list Key -> M (aim_db (list store_write)) (list Obj) :=
  AimDb_get_resources scenario_resource_map store_get store_get_status.

Definition scenario_push_resources
  : list (string * list Obj) -> M (aim_db (list store_write)) unit :=
  AimDb_push_resources store_create store_delete store_set_fault
    store_clear_fault scenario_convert scenario_decompose scenario_dn.

(** The record [resolve_key] computes from the key of [exotic_x1]. *)
Definition exotic_resolved : resolved :=
  {| r_fault_code := None;
     r_dissected := ("vzExotic", ["x1"])%string;
     r_res := exotic_x1;
     r_id_tuple := [inl ("name", "x1")%string] |}.


(** ** Further collaborators and inputs *)

(** A manager that cannot mark an object: [set_resource_sync_error] raises,
    and the attempt is kept in the list of calls. *)
Definition failing_sync_error (o : Obj) (message : string)
  : M (list manager_call) unit :=
  fun calls => (Raised (OtherError "store unreachable"),
                calls ++ [Set_sync_error o message]).

Definition bd2_id : list string := ["BridgeDomain"; "t1"; "bd2"]%string.

(** The ledger with one record and no call made yet. *)
Definition ledger_with (aim_id : list string) (record : Z * Z)
  : ledger (list manager_call) :=
  {| failure_log := {[ aim_id := record ]}; world := [] |}.

(** Two failures of [bd1], a success, and a failure of its deletion. *)
Definition scenario_history : list ledger_call :=
  [Creation_failed 0 bd1 "timeout" OPERATION_TRANSIENT;
   Creation_failed 11 bd1 "timeout" OPERATION_TRANSIENT;
   Creation_succeeded bd1;
   Deletion_failed 30 bd1 "timeout" UNKNOWN].

Definition scenario_run : ledger_call -> M (ledger (list manager_call)) unit :=
  run_call recording_sync_synced recording_sync_error recording_harakiri 3 10.

(** Another fault of [bd1]. *)
Definition fault_F0999 : Obj :=
  Instance AciFault
    (py_dict [("fault_code", "F0999");
              ("external_identifier", "uni/tn-t1/BD-bd1/fault-F0999")]%string).

(** The key of the fault [F0123] of [bd1] as a tree of another root type
    would spell it. *)
Definition fault_key_alias : Key :=
  ["uni|t1"; "fvBD|bd1"; "faultInst|F0123"]%string.

(** The records [resolve_key] computes from the key of [bd1] and from the
    keys of its fault. *)
Definition bd1_resolved : resolved :=
  {| r_fault_code := None;
     r_dissected := ("fvBD", ["t1"; "bd1"])%string;
     r_res := bd1;
     r_id_tuple := [inl ("tenant_name", "t1"); inl ("name", "bd1")]%string |}.

Definition bd1_fault_resolved : resolved :=
  {| r_fault_code := Some "F0123"%string;
     r_dissected := ("fvBD", ["t1"; "bd1"])%string;
     r_res := bd1;
     r_id_tuple := [inl ("tenant_name", "t1"); inl ("name", "bd1");
                    inr "fault"; inr "F0123"]%string |}.

(** A decomposer that finds the fault segment alone in a name. *)
Definition decompose_fault_only (dn aci_type : string)
  : outcome (list (string * string)) :=
  Returned [("faultInst", "F0123")]%string.

(** Modelled from the spec: [find_changed] of the intent store, which is
    not in the two files.  The store holds [bd1] in the configuration tree
    of [t1] and nothing in its operational tree; it returns the trees of
    the tenants requested whose root hash is not the one requested. *)
Definition scenario_find_changed (request : gmap string (option string))
    (operational : bool) : M (list store_write) (gmap string (list Key)) :=
  mret (map_imap
          (fun tenant tree =>
             match request !! tenant with
             | Some known =>
                 if decide (known = root_full_hash tree) then None
                 else Some tree
             | None => None
             end)
          (if operational then view_empty_t1 else view_bd1)).

Definition scenario_universe (id : positive)
  : Universe (list Key) (aim_db (list store_write)) (list Obj) :=
  AimDbUniverse scenario_resource_map store_get store_get_status
    store_create store_delete store_set_fault store_clear_fault
    scenario_convert scenario_decompose scenario_dn scenario_find_changed id.

Definition scenario_operational_universe (id : positive)
  : Universe (list Key) (aim_db (list store_write)) (list Obj) :=
  AimDbOperationalUniverse scenario_resource_map store_get store_get_status
    store_create store_delete store_set_fault store_clear_fault
    scenario_convert scenario_decompose scenario_dn scenario_find_changed id.

(** The universe object once it serves [t1]. *)
Definition serving_t1 : aim_db (list store_write) :=
  {| db := []; LOG := []; _served_tenants := {[ "t1"%string ]} |}.

(** Modelled from the spec: configuration managers, given by name.  The
    manager ["full"] has both options of section 6; the manager
    ["partial"] has [max_operation_retry] and lacks [retry_cooldown]. *)
Definition scenario_get_option (conf_mgr name group : string) : outcome Z :=
  if String.eqb name "max_operation_retry" then Returned 3
  else if String.eqb conf_mgr "full" then Returned 10
  else Raised (OtherError "NoSuchOptError").

Definition blank_object : universe_object string :=
  {| object_id := 1;
     context := None;
     conf_manager := None;
     option_max_create_retry := None;
     option_retry_cooldown := None;
     state_emptied := false;
     aim_db_attributes := false |}.



(** Modelled from the spec: a universe in memory, as [memory_universe],
    whose class defines [get_resources] and inherits
    [get_resources_for_delete] from [HashTreeStoredUniverse]. *)
Definition inheriting_universe (id : positive) (view : gmap string (list Key))
  : Universe (list Key) (list (list (string * option (list Obj))))
      (option (list Obj)) :=
  {| universe_id := id;
     name := "memory";
     state := mret view;
     get_optimized_state := fun _ => mret view;
     get_resources := fun keys =>
       mret (Some (map (fun key => AciDict "key" (String.concat "/" key))
                     keys));
     get_resources_for_delete := HashTreeStoredUniverse_get_resources_for_delete;
     push_resources := fun resources => modify (fun w => w ++ [resources]) |}.

(** A converter that turns an ACI fault record into the fault [F0123] and
    leaves everything else as it is. *)
Definition fault_convert (items : list Obj) : M (list store_write) (list Obj) :=
  mret (map (fun item => match item with
                         | AciDict "faultInst" _ => fault_F0123
                         | _ => item
                         end) items).

(** The fault [F0123] in the format of ACI. *)
Definition aci_fault_F0123 : Obj :=
  AciDict "faultInst" "uni/tn-t1/BD-bd1/fault-F0123".



(** * Theorems *)

(** ** Running the monad *)

Lemma M_bind_run {S A B} (m : M S A) (k : A -> M S B) (x : S) a x' :
  m x = (Returned a, x') -> (m ≫= k) x = k a x'.
Proof. intros Hm. unfold mbind, M_bind. by rewrite Hm. Qed.

Lemma M_bind_raise {S A B} (m : M S A) (k : A -> M S B) (x : S) e x' :
  m x = (Raised e, x') -> (m ≫= k) x = (Raised e, x').
Proof. intros Hm. unfold mbind, M_bind. by rewrite Hm. Qed.

Lemma for_fold_app {S A B} (l1 l2 : list A) (acc : B)
    (body : B -> A -> M S B) (x : S) :
  for_fold (l1 ++ l2) acc body x
  = (acc' ← for_fold l1 acc body; for_fold l2 acc' body) x.
Proof.
  revert acc x. induction l1 as [|a l1 IH]; intros acc x; simpl.
  - reflexivity.
  - unfold mbind, M_bind in *.
    destruct (body acc a x) as [[acc'|e] x']; [apply IH | reflexivity].
Qed.

Lemma raises_only_bind {A B} (P : exn -> Prop) (o : outcome A)
    (k : A -> outcome B) :
  raises_only P o -> (forall a, raises_only P (k a)) ->
  raises_only P (o ≫= k).
Proof. destruct o as [a|e]; simpl; auto. Qed.

Lemma comprehension_raises_only {A B} (P : exn -> Prop)
    (f : A -> outcome B) (l : list A) :
  (forall x, raises_only P (f x)) -> raises_only P (comprehension f l).
Proof.
  intros Hf. induction l as [|x l IH]; simpl; [done |].
  apply raises_only_bind; [apply Hf |]. intros y.
  apply raises_only_bind; [apply IH | done].
Qed.

(** ** The failure ledger *)

Section LedgerTheorems.
Context {World : Type}.
Variable set_resource_sync_error : Obj -> string -> M World unit.
Variable perform_harakiri : string -> M World unit.


(** A counted failure below the maximum: the record becomes
    [(failures + 1, now)] and the manager is not called. *)
Lemma retry_counted max cooldown now obj op reason id (s : ledger World) :
  _get_aim_object_identifier obj = Returned id ->
  cooldown_elapsed cooldown now (recorded s id).2 = true ->
  (recorded s id).1 + 1 < max ->
  _retry_until_max set_resource_sync_error max cooldown now obj op reason s
  = (Returned tt,
     {| failure_log := <[id := ((recorded s id).1 + 1, now)]> (failure_log s);
        world := world s |}).
Proof.
  intros Hid Hel Hlt.
  unfold _retry_until_max, mbind, M_bind, eval, gets, recorded in *. simpl.
  rewrite Hid. simpl.
  destruct (failure_log s !! id) as [[n t]|] eqn:Hlog; simpl in *;
    try rewrite Hel; simpl; rewrite lookup_insert_eq;
    (assert ((max <=? _ + 1) = false) as -> by lia); reflexivity.
Qed.

(** A counted failure that reaches the maximum: the manager marks the
    object and the record is popped. *)
Lemma retry_surrenders max cooldown now obj op reason id
    (s : ledger World) w' :
  _get_aim_object_identifier obj = Returned id ->
  cooldown_elapsed cooldown now (recorded s id).2 = true ->
  max <= (recorded s id).1 + 1 ->
  set_resource_sync_error obj reason (world s) = (Returned tt, w') ->
  _retry_until_max set_resource_sync_error max cooldown now obj op reason s
  = (Returned tt, {| failure_log := delete id (failure_log s); world := w' |}).
Proof.
  intros Hid Hel Hle Hset.
  unfold _retry_until_max, mbind, M_bind, eval, gets, recorded in *. simpl.
  rewrite Hid. simpl.
  destruct (failure_log s !! id) as [[n t]|] eqn:Hlog; simpl in *;
    try rewrite Hel; simpl; rewrite lookup_insert_eq;
    (assert ((max <=? _ + 1) = true) as -> by lia);
    unfold in_world; simpl; rewrite Hset; simpl;
    unfold update_failure_log, modify; simpl;
    by rewrite delete_insert_eq.
Qed.

(** C2 (as amended): with [max_operation_retry = 3] and [retry_cooldown =
    10], four transient [creation_failed] calls on one object at times 0,
    11, 22 and 33, starting without a record for it: the first two only
    count (records [(1, 0)] and [(2, 11)], the manager is not called), the
    third marks the object [sync_error] and pops its record, and the
    fourth leaves the manager alone but opens a new record [(1, 33)]. *)
Theorem retry_escalation_scenario obj id reason (s0 : ledger World) w' :
  _get_aim_object_identifier obj = Returned id ->
  failure_log s0 !! id = None ->
  set_resource_sync_error obj reason (world s0) = (Returned tt, w') ->
  let failed t :=
    creation_failed set_resource_sync_error perform_harakiri 3 10 t
      obj reason OPERATION_TRANSIENT in
  let counting n t :=
    {| failure_log := <[id := (n, t)]> (failure_log s0);
       world := world s0 |} in
  let surrendered := {| failure_log := failure_log s0; world := w' |} in
  failed 0 s0 = (Returned tt, counting 1 0) /\
  failed 11 (counting 1 0) = (Returned tt, counting 2 11) /\
  failed 22 (counting 2 11) = (Returned tt, surrendered) /\
  failed 33 surrendered
  = (Returned tt,
     {| failure_log := <[id := (1, 33)]> (failure_log s0); world := w' |}).
Proof.
  intros Hid Hnone Hset failed counting surrendered.
  unfold failed, creation_failed, _fail_aim_synchronization, error_handlers.
  repeat split.
  - rewrite (retry_counted _ _ _ _ _ _ id); auto;
      unfold recorded; rewrite Hnone; simpl; auto; lia.
  - rewrite (retry_counted _ _ _ _ _ _ id); auto;
      unfold recorded, counting; simpl; rewrite lookup_insert_eq; simpl;
      [by rewrite insert_insert_eq | done | lia].
  - rewrite (retry_surrenders _ _ _ _ _ _ id _ w'); auto;
      unfold recorded, counting, surrendered; simpl;
      rewrite ?lookup_insert_eq; simpl; [| done | lia].
    rewrite delete_insert_eq, delete_id; auto.
  - rewrite (retry_counted _ _ _ _ _ _ id); auto;
      unfold recorded, surrendered; simpl; rewrite Hnone; simpl; auto; lia.
Qed.

End LedgerTheorems.

(** The scenario on the recording manager: the calls return normally. *)
Lemma retry_escalation_scenario_witness :
  _get_aim_object_identifier bd1 = Returned bd1_id /\
  failure_log fresh_ledger !! bd1_id = None /\
  recording_sync_error bd1 "timeout" (world fresh_ledger)
  = (Returned tt, [Set_sync_error bd1 "timeout"]) /\
  scenario_failed 33 {| failure_log := ∅;
                        world := [Set_sync_error bd1 "timeout"] |}
  = (Returned tt,
     {| failure_log := <[bd1_id := (1, 33)]> ∅;
        world := [Set_sync_error bd1 "timeout"] |}).
Proof.
  assert (_get_aim_object_identifier bd1 = Returned bd1_id) as Hid
    by (vm_compute; reflexivity).
  assert (failure_log fresh_ledger !! bd1_id = None) as Hnone
    by (vm_compute; reflexivity).
  assert (recording_sync_error bd1 "timeout" (world fresh_ledger)
          = (Returned tt, [Set_sync_error bd1 "timeout"])) as Hset
    by reflexivity.
  split; [exact Hid |]. split; [exact Hnone |]. split; [exact Hset |].
  exact (proj2 (proj2 (proj2
    (retry_escalation_scenario recording_sync_error recording_harakiri
       bd1 bd1_id "timeout" fresh_ledger _ Hid Hnone Hset)))).
Defined.

(** C2 (counterexample to the claim as stated): after the third call there
    is no record for the object; the fourth call at 33 puts the record
    [(1, 33)] into the failure ledger, so it is not a no-op. *)
Lemma retry_escalation_fourth_call_changes_ledger :
  let s3 := (scenario_failed 22
               (scenario_failed 11 (scenario_failed 0 fresh_ledger).2).2).2 in
  let s4 := (scenario_failed 33 s3).2 in
  world s3 = [Set_sync_error bd1 "timeout"] /\
  failure_log s3 !! bd1_id = None /\
  failure_log s4 !! bd1_id = Some (1, 33) /\
  s4 <> s3.
Proof.
  cbv zeta.
  assert (failure_log
            (scenario_failed 22
               (scenario_failed 11 (scenario_failed 0 fresh_ledger).2).2).2
          !! bd1_id = None) as H3 by (vm_compute; reflexivity).
  assert (failure_log
            (scenario_failed 33
               (scenario_failed 22
                  (scenario_failed 11 (scenario_failed 0 fresh_ledger).2).2).2).2
          !! bd1_id = Some (1, 33)) as H4 by (vm_compute; reflexivity).
  split; [vm_compute; reflexivity |].
  split; [exact H3 |]. split; [exact H4 |].
  intros Heq. rewrite Heq, H3 in H4. discriminate H4.
Qed.

(** ** The cooldown window *)

Section CooldownWindow.
Context {World : Type}.
Variable set_resource_sync_synced : Obj -> M World unit.
Variable set_resource_sync_error : Obj -> string -> M World unit.
Variable perform_harakiri : string -> M World unit.
Variables max_create_retry retry_cooldown : Z.
Implicit Types (s : ledger World) (c : ledger_call).

Local Abbreviation run :=
  (run_call set_resource_sync_synced set_resource_sync_error perform_harakiri
     max_create_retry retry_cooldown).






End CooldownWindow.


(** ** The reconciler *)

Section ReconcilerTheorems.
Context {Tree W R : Type} `{HashTree Tree}.
Implicit Types (self other : Universe Tree W R).
Implicit Types (s : reconciliation W R).
Implicit Types (my_state other_state : gmap string Tree).

Lemma in_rworld_run {A} (call : M W A) s o w :
  call (rworld s) = (o, w) -> in_rworld call s = (o, with_world w s).
Proof. intros Hc. unfold in_rworld. by rewrite Hc. Qed.

(** The first loop returns the concatenated differences and raises
    nothing: every tenant it visits is a key of [other_state]. *)
Lemma accumulate_differences my_state other_state l result s :
  (forall t, t ∈ l -> is_Some (other_state !! t)) ->
  for_fold l result (accumulate_difference my_state other_state) s
  = (Returned
       (result.1 ++ flat_map (fun t => add (tenant_difference my_state other_state t)) l,
        result.2 ++ flat_map (fun t => remove (tenant_difference my_state other_state t)) l),
     s).
Proof.
  revert result s. induction l as [|t l IH]; intros result s Hin; simpl.
  - rewrite !app_nil_r. by destruct result.
  - destruct (Hin t) as [tree Htree]; [by left |].
    unfold mbind, M_bind, accumulate_difference at 1, eval, subscript.
    rewrite Htree. simpl. rewrite IH by (intros; apply Hin; by right).
    assert (tenant_difference my_state other_state t
            = diff tree (default empty_tree (my_state !! t))) as ->
      by (unfold tenant_difference; by rewrite Htree).
    simpl. by rewrite <- !app_assoc.
Qed.

Lemma vote_on_tenant_run self other skip always other_state item s :
  vote_on_tenant self other skip always other_state item s
  = (Returned tt,
     with_candidates
       (partial_alter (vote_entry self skip always other_state item.1 item.2)
          item.1) s).
Proof.
  destruct item as [tenant tree]. unfold vote_on_tenant, vote_entry. simpl.
  assert (forall c : gmap string (gset positive),
             partial_alter (fun votes => votes) tenant c = c) as Hid.
  { intros c. apply map_eq. intros j.
    destruct (decide (tenant = j)) as [->|Hne].
    - by rewrite lookup_partial_alter_eq.
    - by rewrite lookup_partial_alter_ne. }
  assert (forall (g : option (gset positive) -> gset positive)
                 (c : gmap string (gset positive)),
             <[tenant := g (c !! tenant)]> c
             = partial_alter (fun votes => Some (g votes)) tenant c) as Hins.
  { intros g c. apply map_eq. intros j.
    destruct (decide (tenant = j)) as [->|Hne].
    - by rewrite lookup_insert_eq, lookup_partial_alter_eq.
    - by rewrite lookup_insert_ne, lookup_partial_alter_ne. }
  assert (_vote_tenant_for_deletion self other tenant s
          = (Returned tt,
             with_candidates
               (partial_alter
                  (fun votes => Some ({[universe_id self]} ∪ default ∅ votes))
                  tenant) s)) as Hvote.
  { unfold _vote_tenant_for_deletion, update_candidates, modify,
      with_candidates.
    by rewrite (Hins (fun votes => {[universe_id self]} ∪ default ∅ votes)). }
  destruct (always || skip && no_root_or_dummy tree); [exact Hvote |].
  destruct (no_root tree).
  - destruct (match other_state !! tenant with
              | Some other_tree => no_root other_tree
              | None => true
              end); [exact Hvote | reflexivity].
  - unfold with_candidates. rewrite Hid. by destruct s.
Qed.

Lemma vote_loop_run self other skip always other_state l s :
  for_each l (vote_on_tenant self other skip always other_state) s
  = (Returned tt, with_candidates (voted self skip always other_state l) s).
Proof.
  revert s. induction l as [|item l IH]; intros s; simpl.
  - by destruct s.
  - unfold mbind, M_bind. rewrite vote_on_tenant_run, IH.
    by destruct s.
Qed.

Lemma voted_other_tenant self skip always other_state l candidates t :
  t ∉ l.*1 ->
  voted self skip always other_state l candidates !! t = candidates !! t.
Proof.
  revert candidates. induction l as [|[t' tree] l IH]; intros c Hnot; [done |].
  simpl in *. apply not_elem_of_cons in Hnot as [Hne Hnot].
  unfold voted in *. simpl. rewrite IH by done.
  by rewrite lookup_partial_alter_ne.
Qed.

Lemma voted_tenant self skip always other_state l candidates t tree :
  NoDup l.*1 -> (t, tree) ∈ l ->
  voted self skip always other_state l candidates !! t
  = vote_entry self skip always other_state t tree (candidates !! t).
Proof.
  revert candidates. induction l as [|[t' tree'] l IH]; intros c Hnd Hin.
  - by apply elem_of_nil in Hin.
  - simpl in Hnd. apply NoDup_cons in Hnd as [Hfresh Hnd].
    apply elem_of_cons in Hin as [Heq|Hin].
    + injection Heq as <- <-. unfold voted. simpl.
      fold (voted self skip always other_state l
              (partial_alter (vote_entry self skip always other_state t tree) t c)).
      rewrite voted_other_tenant by done.
      by rewrite lookup_partial_alter_eq.
    + unfold voted. simpl.
      fold (voted self skip always other_state l
              (partial_alter (vote_entry self skip always other_state t' tree') t' c)).
      rewrite IH by done.
      rewrite lookup_partial_alter_ne; [done |].
      intros ->. apply Hfresh. apply list_elem_of_fmap. by exists (t, tree).
Qed.

(** The entry of a tenant of [my_state] after the second loop. *)
Lemma voted_state_tenant self skip always other_state my_state candidates t tree :
  my_state !! t = Some tree ->
  voted self skip always other_state (map_to_list my_state) candidates !! t
  = vote_entry self skip always other_state t tree (candidates !! t).
Proof.
  intros Ht. apply voted_tenant.
  - apply NoDup_fst_map_to_list.
  - by apply elem_of_map_to_list.
Qed.

Lemma flat_map_nil_inv {A B} (f : A -> list B) (l : list A) :
  flat_map f l = [] <-> forall x, x ∈ l -> f x = [].
Proof.
  induction l as [|a l IH]; simpl.
  - split; [intros _ x Hx; by apply elem_of_nil in Hx | done].
  - rewrite app_nil, IH. split.
    + intros [Ha Hl] x [->|Hx]%elem_of_cons; auto.
    + intros Hall. split; [apply Hall; by left |].
      intros x Hx. apply Hall. by right.
Qed.

(** The tenants visited by the first loop are the common keys. *)
Lemma common_tenants_spec my_state other_state t :
  t ∈ common_tenants my_state other_state
  <-> is_Some (my_state !! t) /\ is_Some (other_state !! t).
Proof.
  unfold common_tenants.
  by rewrite elem_of_elements, elem_of_intersection, !elem_of_dom.
Qed.

(** Nothing to create and nothing to delete, exactly when every tenant of
    both states has an empty difference. *)
Lemma nothing_to_do_iff my_state other_state :
  flat_map (fun t => add (tenant_difference my_state other_state t))
    (common_tenants my_state other_state) = [] /\
  flat_map (fun t => remove (tenant_difference my_state other_state t))
    (common_tenants my_state other_state) = []
  <-> (forall t tree mine,
          other_state !! t = Some tree -> my_state !! t = Some mine ->
          add (diff tree mine) = [] /\ remove (diff tree mine) = []).
Proof.
  rewrite !flat_map_nil_inv. split.
  - intros [Hadd Hrem] t tree mine Ho Hm.
    assert (t ∈ common_tenants my_state other_state) as Hin
      by (apply common_tenants_spec; eauto).
    specialize (Hadd t Hin). specialize (Hrem t Hin).
    unfold tenant_difference in *. rewrite Ho, Hm in *. auto.
  - intros Hsync.
    split; intros t [[mine Hm] [tree Ho]]%common_tenants_spec;
      unfold tenant_difference; rewrite Ho, Hm; simpl;
      by destruct (Hsync t tree mine).
Qed.

(** [_reconcile] once both states were read: the two loops run to their
    end, and the rest depends on what the first one collected. *)
Lemma reconcile_run self other skip always s my_state w0 other_state w1 :
  state self (rworld s) = (Returned my_state, w0) ->
  get_optimized_state other my_state w0 = (Returned other_state, w1) ->
  let tenants := common_tenants my_state other_state in
  let to_create :=
    flat_map (fun t => add (tenant_difference my_state other_state t)) tenants in
  let to_delete :=
    flat_map (fun t => remove (tenant_difference my_state other_state t)) tenants in
  let s1 :=
    with_candidates (voted self skip always other_state (map_to_list my_state))
      (with_world w1 s) in
  _reconcile self other skip always s
  = match to_create, to_delete with
    | [], [] => (Returned false, s1)
    | _, _ =>
        (created ← in_rworld (get_resources other to_create);
         deleted ← in_rworld (get_resources_for_delete self to_delete);
         call_push_resources self [(CREATE, created); (DELETE, deleted)] ;;
         mret true) s1
    end.
Proof.
  intros Hmine Htheirs tenants to_create to_delete s1.
  unfold _reconcile.
  rewrite (M_bind_run _ _ _ _ _ (in_rworld_run _ _ _ _ Hmine)).
  rewrite (M_bind_run _ _ _ _ _
             (in_rworld_run _ (with_world w0 s) _ _ Htheirs)).
  erewrite M_bind_run; cycle 1.
  { apply accumulate_differences.
    intros t Ht. by apply common_tenants_spec in Ht as [_ ?]. }
  rewrite (M_bind_run _ _ _ _ _ (vote_loop_run _ _ _ _ _ _ _)).
  cbn [fst snd app].
  change (elements (dom my_state ∩ dom other_state)) with tenants.
  fold to_create. fold to_delete.
  change (with_candidates _ (with_world w1 (with_world w0 s))) with s1.
  destruct to_create, to_delete; reflexivity.
Qed.

(** Hydration and the push leave [delete_candidates] alone, whatever
    their outcome. *)
Lemma reconcile_candidates self other skip always s my_state w0 other_state w1 :
  state self (rworld s) = (Returned my_state, w0) ->
  get_optimized_state other my_state w0 = (Returned other_state, w1) ->
  delete_candidates (_reconcile self other skip always s).2
  = voted self skip always other_state (map_to_list my_state)
      (delete_candidates s).
Proof.
  intros Hmine Htheirs.
  rewrite (reconcile_run _ _ _ _ _ _ _ _ _ Hmine Htheirs). cbv zeta.
  set (tc := flat_map _ _). set (td := flat_map _ _).
  set (s1 := with_candidates _ _).
  assert (delete_candidates
            ((created ← in_rworld (get_resources other tc);
              deleted ← in_rworld (get_resources_for_delete self td);
              call_push_resources self [(CREATE, created); (DELETE, deleted)] ;;
              mret true) s1).2 = delete_candidates s1) as Hrest.
  { unfold call_push_resources, in_rworld, modify, mbind, M_bind, mret, M_ret.
    simpl.
    destruct (get_resources other tc w1) as [[created|e] w2]; simpl; [|done].
    destruct (get_resources_for_delete self td w2) as [[deleted|e] w3];
      simpl; [|done].
    destruct (push_resources self [(CREATE, created); (DELETE, deleted)] w3)
      as [[[]|e] w4]; done. }
  destruct tc, td; try exact Hrest; reflexivity.
Qed.

(** C1: once both states were read, [reconcile] returns [False] without a
    call of [push_resources] when every tenant of both states has an empty
    difference; otherwise it hydrates what the differences list (creates
    through the other universe's [get_resources], deletes through its own
    [get_resources_for_delete]), calls its own [push_resources] once, with
    the hydrated map, and returns [True]. *)
Theorem reconcile_in_sync_or_push self other s my_state w0 other_state w1 :
  state self (rworld s) = (Returned my_state, w0) ->
  get_optimized_state other my_state w0 = (Returned other_state, w1) ->
  let tenants := common_tenants my_state other_state in
  let to_create :=
    flat_map (fun t => add (tenant_difference my_state other_state t)) tenants in
  let to_delete :=
    flat_map (fun t => remove (tenant_difference my_state other_state t)) tenants in
  let in_sync :=
    forall t tree mine,
      other_state !! t = Some tree -> my_state !! t = Some mine ->
      add (diff tree mine) = [] /\ remove (diff tree mine) = [] in
  (in_sync ->
     (reconcile self other s).1 = Returned false /\
     pushes (reconcile self other s).2 = pushes s /\
     rworld (reconcile self other s).2 = w1) /\
  (~ in_sync ->
     forall created w2 deleted w3 w4,
       get_resources other to_create w1 = (Returned created, w2) ->
       get_resources_for_delete self to_delete w2 = (Returned deleted, w3) ->
       push_resources self [(CREATE, created); (DELETE, deleted)] w3
       = (Returned tt, w4) ->
       (reconcile self other s).1 = Returned true /\
       pushes (reconcile self other s).2
       = pushes s ++ [(universe_id self, [(CREATE, created); (DELETE, deleted)])] /\
       rworld (reconcile self other s).2 = w4).
Proof.
  intros Hmine Htheirs tenants to_create to_delete in_sync.
  unfold reconcile.
  rewrite (reconcile_run _ _ _ _ _ _ _ _ _ Hmine Htheirs). cbv zeta.
  fold tenants. fold to_create. fold to_delete.
  pose proof (nothing_to_do_iff my_state other_state) as Hiff.
  fold tenants in Hiff. fold to_create in Hiff. fold to_delete in Hiff.
  fold in_sync in Hiff.
  split.
  - intros Hsync. apply Hiff in Hsync as [-> ->]. by simpl.
  - intros Hnot created w2 deleted w3 w4 Hc Hd Hp.
    assert ((created ← in_rworld (get_resources other to_create);
             deleted ← in_rworld (get_resources_for_delete self to_delete);
             call_push_resources self [(CREATE, created); (DELETE, deleted)] ;;
             mret true)
              (with_candidates
                 (voted self false false other_state (map_to_list my_state))
                 (with_world w1 s))
            = (Returned true,
               {| rworld := w4;
                  delete_candidates :=
                    voted self false false other_state (map_to_list my_state)
                      (delete_candidates s);
                  pushes := pushes s ++
                    [(universe_id self, [(CREATE, created); (DELETE, deleted)])] |}))
      as Hrest.
    { unfold call_push_resources, in_rworld, modify, mbind, M_bind, mret,
        M_ret. simpl. rewrite Hc. simpl. rewrite Hd. simpl. by rewrite Hp. }
    destruct to_create as [|k tc].
    + destruct to_delete as [|k td].
      * exfalso. apply Hnot. by apply Hiff.
      * by rewrite Hrest.
    + by rewrite Hrest.
Qed.

(** C3: after one [reconcile] (so with [skip_dummy] and
    [always_vote_deletion] unset) that read both states, for a tenant whose
    tree in [self.state] has no root: when the other state lacks the tenant
    or its tree there has no root either, [self] is in the tenant's votes
    (added to what was there); otherwise [self] has been discarded from
    the tenant's votes, and an absent entry stays absent. *)
Theorem reconcile_votes_on_rootless_tenant
    self other s my_state w0 other_state w1 tenant tree :
  state self (rworld s) = (Returned my_state, w0) ->
  get_optimized_state other my_state w0 = (Returned other_state, w1) ->
  my_state !! tenant = Some tree ->
  root tree = None ->
  let before := delete_candidates s !! tenant in
  let after := delete_candidates (reconcile self other s).2 !! tenant in
  ((other_state !! tenant = None \/
    exists other_tree,
      other_state !! tenant = Some other_tree /\ root other_tree = None) ->
   after = Some ({[universe_id self]} ∪ default ∅ before) /\
   universe_id self ∈ default ∅ after) /\
  (forall other_tree node,
      other_state !! tenant = Some other_tree ->
      root other_tree = Some node ->
      after = (fun votes => votes ∖ {[universe_id self]}) <$> before /\
      universe_id self ∉ default ∅ after).
Proof.
  intros Hmine Htheirs Htree Hroot before after.
  assert (after = vote_entry self false false other_state tenant tree before)
    as Hafter.
  { unfold after, before, reconcile.
    rewrite (reconcile_candidates _ _ _ _ _ _ _ _ _ Hmine Htheirs).
    by apply voted_state_tenant. }
  unfold vote_entry, no_root in Hafter. rewrite Hroot in Hafter.
  simpl in Hafter. split.
  - intros [Hnone | (other_tree & Hsome & Hnoroot)].
    + rewrite Hnone in Hafter. rewrite Hafter. split; [done |].
      simpl. apply elem_of_union_l. by apply elem_of_singleton.
    + rewrite Hsome, Hnoroot in Hafter. rewrite Hafter. split; [done |].
      simpl. apply elem_of_union_l. by apply elem_of_singleton.
  - intros other_tree node Hsome Hnode.
    rewrite Hsome, Hnode in Hafter. rewrite Hafter. split; [done |].
    destruct before as [votes|]; simpl.
    + rewrite elem_of_difference, elem_of_singleton. tauto.
    + apply not_elem_of_empty.
Qed.

End ReconcilerTheorems.

(** Scenarios 1 and 2 of section 8: two universes with the same tree for
    [t1] are in sync; a universe whose [t1] is empty pushes the bridge
    domain the other one has. *)
Lemma reconcile_in_sync_or_push_witness :
  (reconcile (memory_universe 1 view_bd1) (memory_universe 2 view_bd1)
     (starting ∅)).1 = Returned false /\
  pushes (reconcile (memory_universe 1 view_bd1) (memory_universe 2 view_bd1)
            (starting ∅)).2 = [] /\
  (reconcile (memory_universe 1 view_empty_t1) (memory_universe 2 view_bd1)
     (starting ∅)).1 = Returned true /\
  pushes (reconcile (memory_universe 1 view_empty_t1)
            (memory_universe 2 view_bd1) (starting ∅)).2
  = [(1%positive,
      [(CREATE, [AciDict "key" "fvTenant|t1/fvBD|bd1"]); (DELETE, [])])].
Proof.
  pose proof (reconcile_in_sync_or_push
                (memory_universe 1 view_bd1) (memory_universe 2 view_bd1)
                (starting ∅) view_bd1 [] view_bd1 []
                eq_refl eq_refl) as [Hsync _].
  pose proof (reconcile_in_sync_or_push
                (memory_universe 1 view_empty_t1) (memory_universe 2 view_bd1)
                (starting ∅) view_empty_t1 [] view_bd1 []
                eq_refl eq_refl) as [_ Hpush].
  cbv zeta in Hsync, Hpush.
  destruct Hsync as (Hfalse & Hnone & _).
  { unfold view_bd1.
    intros t tree mine [<- <-]%lookup_singleton_Some
      [_ <-]%lookup_singleton_Some.
    vm_compute. by split. }
  destruct (Hpush
              ltac:(intros Hsync;
                    destruct (Hsync "t1"%string [bd1_key] [] eq_refl eq_refl)
                      as [Hadd _]; vm_compute in Hadd; discriminate Hadd)
              [AciDict "key" "fvTenant|t1/fvBD|bd1"] [] [] []
              [[(CREATE, [AciDict "key" "fvTenant|t1/fvBD|bd1"]); (DELETE, [])]])
    as (Htrue & Hone & _).
  { vm_compute. reflexivity. }
  { vm_compute. reflexivity. }
  { reflexivity. }
  split; [exact Hfalse |]. split; [exact Hnone |].
  split; [exact Htrue | exact Hone].
Defined.

(** Scenarios 4 and 5 of section 8.  Consensus: [t1] is empty here and
    absent there, so the universe votes.  Dissent: [t1] is empty here and
    has a root there, so the vote an earlier call left is withdrawn. *)
Lemma reconcile_votes_on_rootless_tenant_witness :
  delete_candidates
    (reconcile (memory_universe 1 view_empty_t1) (memory_universe 2 view_none)
       (starting ∅)).2 !! "t1"%string = Some {[ 1%positive ]} /\
  delete_candidates
    (reconcile (memory_universe 1 view_empty_t1) (memory_universe 2 view_bd1)
       (starting {[ "t1"%string := {[ 1%positive ]} ]})).2 !! "t1"%string
  = Some ∅.
Proof.
  pose proof (reconcile_votes_on_rootless_tenant
                (memory_universe 1 view_empty_t1) (memory_universe 2 view_none)
                (starting ∅) view_empty_t1 [] view_none [] "t1"%string []
                eq_refl eq_refl eq_refl eq_refl) as [Hvote _].
  pose proof (reconcile_votes_on_rootless_tenant
                (memory_universe 1 view_empty_t1) (memory_universe 2 view_bd1)
                (starting {[ "t1"%string := {[ 1%positive ]} ]})
                view_empty_t1 [] view_bd1 [] "t1"%string []
                eq_refl eq_refl eq_refl eq_refl) as [_ Hdissent].
  cbv zeta in Hvote, Hdissent.
  destruct (Hvote (or_introl eq_refl)) as [Hin _].
  destruct (Hdissent [bd1_key] {| dummy := false |} eq_refl eq_refl)
    as [Hout _].
  split.
  - rewrite Hin. vm_compute. reflexivity.
  - rewrite Hout. vm_compute. reflexivity.
Defined.

(** ** [AimDbUniverse]: the optimized state *)

Section OptimizedStateTheorems.
Context {Tree World : Type} `{HashTree Tree}.
Variable find_changed :
  gmap string (option string) -> bool -> M World (gmap string Tree).
Implicit Types (other_state : gmap string Tree).
Implicit Types (request : gmap string (option string)).

(** What the loop body leaves in the request for each tenant. *)
Lemma request_tenant_lookup other_state request tenant t :
  request_tenant other_state request tenant !! t
  = if decide (tenant = t) then Some (other_state !! tenant ≫= root_full_hash)
    else request !! t.
Proof.
  unfold request_tenant.
  destruct (other_state !! tenant) as [tree|] eqn:Htree; simpl.
  - destruct (root_full_hash tree) as [h|] eqn:Hh;
      destruct (decide (tenant = t)) as [->|Hne];
      rewrite ?lookup_insert_eq, ?lookup_insert_ne by done; done.
  - destruct (decide (tenant = t)) as [->|Hne];
      rewrite ?lookup_insert_eq, ?lookup_insert_ne by done; done.
Qed.

Lemma request_loop_lookup other_state (l : list string) request t :
  foldl (request_tenant other_state) request l !! t
  = if decide (t ∈ l) then Some (other_state !! t ≫= root_full_hash)
    else request !! t.
Proof.
  revert request. induction l as [|tenant l IH]; intros request; simpl.
  - destruct (decide (t ∈ [])) as [Hin|_]; [by apply elem_of_nil in Hin | done].
  - rewrite IH, request_tenant_lookup.
    destruct (decide (t ∈ l)) as [Hin|Hnin].
    + rewrite decide_True; [done | by right].
    + destruct (decide (tenant = t)) as [->|Hne].
      * rewrite decide_True; [done | by left].
      * rewrite decide_False; [done |].
        intros [->|?]%elem_of_cons; done.
Qed.

(** C10: [get_optimized_state] hands [find_changed] a request whose keys
    are the served tenants and nothing else: a served tenant is requested
    with the root hash [other_state] has for it, or with [None] when
    [other_state] lacks the tenant or its tree has no root hash; a tenant
    that is not served is not in the request, whether or not [other_state]
    has it.  The served set is the one the last [serve] call stored. *)
Theorem get_optimized_state_requests_served_tenants
    other_state (operational : bool) (tenants : list string)
    (s : aim_db World) :
  let request := optimized_request (_served_tenants s) other_state in
  AimDb_get_optimized_state find_changed other_state operational s
  = in_db (find_changed request operational) s /\
  (forall t,
      request !! t
      = if decide (t ∈ _served_tenants s)
        then Some (other_state !! t ≫= root_full_hash)
        else None) /\
  dom request = _served_tenants s /\
  _served_tenants (serve tenants s).2 = list_to_set tenants.
Proof.
  intros request.
  assert (forall t,
             request !! t
             = if decide (t ∈ _served_tenants s)
               then Some (other_state !! t ≫= root_full_hash)
               else None) as Hlookup.
  { intros t. unfold request, optimized_request.
    rewrite request_loop_lookup, lookup_empty.
    destruct (decide (t ∈ elements (_served_tenants s))) as [Hin|Hnin].
    - rewrite decide_True; [done | by apply elem_of_elements].
    - rewrite decide_False; [done | by rewrite <- elem_of_elements]. }
  split; [reflexivity |]. split; [exact Hlookup |]. split; [| reflexivity].
  apply set_eq. intros t. rewrite elem_of_dom, Hlookup.
  destruct (decide (t ∈ _served_tenants s)) as [Hin|Hnin].
  - split; [done | by eexists].
  - split; [by intros [? ?] | done].
Qed.

End OptimizedStateTheorems.

(** ** [AimDbUniverse.get_resources] *)

Section GetResourcesTheorems.
Context {World : Type}.
Variable resource_map : gmap string (list Klass).
Variable manager_get : Obj -> M World (option Obj).
Variable manager_get_status : Obj -> M World (option (list Obj)).
Implicit Types (s : aim_db World) (acc : list Obj * gset id_tuple).
Implicit Types (r : resolved) (key : Key) (keys : list Key).

Local Abbreviation resolve := (resolve_key resource_map).
Local Abbreviation lookup := (lookup_resource manager_get manager_get_status).
Local Abbreviation step :=
  (get_resources_step resource_map manager_get manager_get_status).
Local Abbreviation loop :=
  (get_resources_loop resource_map manager_get manager_get_status).
Local Abbreviation hydrated_from :=
  (hydrated_from manager_get manager_get_status).
Local Abbreviation identified :=
  (identified resource_map manager_get manager_get_status).
Local Abbreviation distinct_identities :=
  (distinct_identities resource_map manager_get manager_get_status).
Local Abbreviation aim_get_resources :=
  (AimDb_get_resources resource_map manager_get manager_get_status).

(** *** One iteration, case by case *)

Lemma step_not_resolved key e acc s :
  resolve key = Raised e -> step acc key s = (Raised e, s).
Proof.
  intros Hr. unfold get_resources_step.
  apply M_bind_raise. unfold eval. by rewrite Hr.
Qed.

Lemma step_resolved key r acc s :
  resolve key = Returned r ->
  step acc key s
  = (if decide (r_id_tuple r ∈ acc.2) then mret acc
     else
       try_except
         (res_db ← lookup r;
          match res_db with
          | Some found => mret (emitted r found acc)
          | None => mret acc
          end)
         (fun e =>
            match e with
            | UnknownResourceType =>
                log_append (Warn_not_defined (r_dissected r)) ;;
                mret (emitted r (r_res r) acc)
            | _ => raise e
            end)) s.
Proof.
  intros Hr. unfold get_resources_step.
  erewrite M_bind_run; [reflexivity |]. unfold eval. by rewrite Hr.
Qed.

Lemma step_seen key r acc s :
  resolve key = Returned r -> r_id_tuple r ∈ acc.2 ->
  step acc key s = (Returned acc, s).
Proof.
  intros Hr Hin. rewrite (step_resolved _ _ _ _ Hr).
  by rewrite decide_True.
Qed.

Lemma step_found key r acc s found s' :
  resolve key = Returned r -> r_id_tuple r ∉ acc.2 ->
  lookup r s = (Returned (Some found), s') ->
  step acc key s = (Returned (emitted r found acc), s').
Proof.
  intros Hr Hnin Hl. rewrite (step_resolved _ _ _ _ Hr).
  rewrite decide_False by done.
  unfold try_except. by rewrite (M_bind_run _ _ _ _ _ Hl).
Qed.

Lemma step_missing key r acc s s' :
  resolve key = Returned r -> r_id_tuple r ∉ acc.2 ->
  lookup r s = (Returned None, s') ->
  step acc key s = (Returned acc, s').
Proof.
  intros Hr Hnin Hl. rewrite (step_resolved _ _ _ _ Hr).
  rewrite decide_False by done.
  unfold try_except. by rewrite (M_bind_run _ _ _ _ _ Hl).
Qed.

Lemma step_unknown_type key r acc s s' :
  resolve key = Returned r -> r_id_tuple r ∉ acc.2 ->
  lookup r s = (Raised UnknownResourceType, s') ->
  step acc key s
  = (Returned (emitted r (r_res r) acc),
     logged (Warn_not_defined (r_dissected r)) s').
Proof.
  intros Hr Hnin Hl. rewrite (step_resolved _ _ _ _ Hr).
  rewrite decide_False by done.
  unfold try_except. by rewrite (M_bind_raise _ _ _ _ _ Hl).
Qed.

Lemma step_lookup_raises key r acc s e s' :
  resolve key = Returned r -> r_id_tuple r ∉ acc.2 ->
  lookup r s = (Raised e, s') -> e <> UnknownResourceType ->
  step acc key s = (Raised e, s').
Proof.
  intros Hr Hnin Hl He. rewrite (step_resolved _ _ _ _ Hr).
  rewrite decide_False by done.
  unfold try_except. rewrite (M_bind_raise _ _ _ _ _ Hl).
  by destruct e.
Qed.

(** *** What [resolve_key] can raise *)

Lemma _dissect_key_raises key : raises_only not_unknown_type (_dissect_key key).
Proof. unfold _dissect_key. by destruct (last key). Qed.

Lemma identity_kwargs_raises attributes ids :
  raises_only not_unknown_type (identity_kwargs attributes ids).
Proof.
  revert ids. induction attributes as [|y attributes IH]; intros ids; [done |].
  destruct ids as [|v ids]; simpl; [done |].
  apply raises_only_bind; [apply IH | done].
Qed.

Lemma getattr_raises o x : raises_only not_unknown_type (getattr o x).
Proof.
  destruct o as [k attrs|]; simpl; [| done]. by destruct (attrs !! x).
Qed.

Lemma resolve_key_raises key : raises_only not_unknown_type (resolve key).
Proof.
  unfold resolve_key.
  apply raises_only_bind; [apply _dissect_key_raises |]. intros dissected.
  apply raises_only_bind.
  { destruct (String.eqb dissected.1 ACI_FAULT); [| done].
    destruct (last dissected.2); [| done].
    apply raises_only_bind; [apply _dissect_key_raises | done]. }
  intros [fault_code parent].
  apply raises_only_bind.
  { unfold subscript. by destruct (resource_map !! parent.1). }
  intros entries. apply raises_only_bind; [by destruct entries |].
  intros klass. apply raises_only_bind; [apply identity_kwargs_raises |].
  intros kwargs. apply raises_only_bind; [done |].
  intros attributes. apply raises_only_bind; [| done].
  apply comprehension_raises_only. intros x.
  apply raises_only_bind; [apply getattr_raises | done].
Qed.

(** [get_resources] lets no [UnknownResourceType] through. *)
Lemma step_never_unknown_type key acc s :
  (step acc key s).1 <> Raised UnknownResourceType.
Proof.
  pose proof (resolve_key_raises key) as Hraise.
  destruct (resolve key) as [r|e] eqn:Hr.
  - rewrite (step_resolved _ _ _ _ Hr).
    destruct (decide (r_id_tuple r ∈ acc.2)); [done |].
    unfold try_except, mbind, M_bind.
    destruct (lookup r s) as [[[found|]|e] s']; try done.
    destruct e; simpl; done.
  - rewrite (step_not_resolved _ _ _ _ Hr). simpl in *.
    intros [= ->]. by apply Hraise.
Qed.

Lemma loop_never_unknown_type keys acc s :
  (loop keys acc s).1 <> Raised UnknownResourceType.
Proof.
  revert acc s. induction keys as [|key keys IH]; intros acc s; [done |].
  unfold get_resources_loop in *. simpl. unfold mbind, M_bind.
  pose proof (step_never_unknown_type key acc s) as Hstep.
  destruct (step acc key s) as [[acc'|e] s']; [apply IH | exact Hstep].
Qed.

(** *** The log and the result only grow *)

Lemma lookup_keeps_log r s : LOG (lookup r s).2 = LOG s.
Proof.
  unfold lookup_resource.
  assert (LOG (in_db (manager_get (r_res r)) s).2 = LOG s) as Hget.
  { unfold in_db. by destruct (manager_get (r_res r) (db s)). }
  destruct (r_fault_code r) as [code|]; [| exact Hget].
  destruct (truthy (Some code)); [| exact Hget].
  unfold mbind, M_bind, in_db, eval, mret, M_ret.
  destruct (manager_get_status (r_res r) (db s)) as [[[faults|]|e] w]; done.
Qed.

Lemma step_grows key acc s :
  LOG s `prefix_of` LOG (step acc key s).2 /\
  forall acc', (step acc key s).1 = Returned acc' -> acc.1 `prefix_of` acc'.1.
Proof.
  destruct (resolve key) as [r|e] eqn:Hr.
  - rewrite (step_resolved _ _ _ _ Hr).
    destruct (decide (r_id_tuple r ∈ acc.2)).
    { split; [done |]. by intros acc' [= <-]. }
    pose proof (lookup_keeps_log r s) as Hlog.
    unfold try_except, mbind, M_bind.
    destruct (lookup r s) as [[[found|]|e] s']; simpl in *.
    + rewrite Hlog. split; [done |]. intros acc' [= <-]. by apply prefix_app_r.
    + rewrite Hlog. split; [done |]. by intros acc' [= <-].
    + destruct e; simpl; rewrite ?Hlog; try (split; [done | done]).
      split; [by apply prefix_app_r |].
      intros acc' [= <-]. by apply prefix_app_r.
  - rewrite (step_not_resolved _ _ _ _ Hr). split; [done | done].
Qed.

Lemma loop_grows keys acc s :
  LOG s `prefix_of` LOG (loop keys acc s).2 /\
  forall acc', (loop keys acc s).1 = Returned acc' -> acc.1 `prefix_of` acc'.1.
Proof.
  revert acc s. induction keys as [|key keys IH]; intros acc s.
  - split; [done |]. by intros acc' [= <-].
  - unfold get_resources_loop in *. simpl. unfold mbind, M_bind.
    destruct (step_grows key acc s) as [Hlog Hres].
    destruct (step acc key s) as [[acc1|e] s1]; simpl in *.
    + destruct (IH acc1 s1) as [Hlog' Hres']. split.
      * by etrans.
      * intros acc' Hacc'. etrans; [by apply Hres | by apply Hres'].
    + split; [done | done].
Qed.

(** *** The shell *)

Lemma identity_kwargs_names attributes ids kwargs :
  identity_kwargs attributes ids = Returned kwargs -> kwargs.*1 = attributes.
Proof.
  revert ids kwargs.
  induction attributes as [|y attributes IH]; intros ids kwargs Hk; simpl in *.
  - by injection Hk as <-.
  - destruct ids as [|v ids]; [done |]. simpl in Hk.
    destruct (identity_kwargs attributes ids) as [rest|e] eqn:Hrest; [| done].
    simpl in Hk. injection Hk as <-. simpl. f_equal. by eapply IH.
Qed.

(** The resource built from a key is an instance of the class the resource
    map gives, with the identity attributes set and nothing else. *)
Lemma resolve_key_shell key r :
  resolve key = Returned r ->
  exists klass kwargs,
    r_res r = Instance klass (py_dict kwargs) /\
    kwargs.*1 = identity_attributes klass.
Proof.
  unfold resolve_key. intros Hr.
  destruct (_dissect_key key) as [dissected|] eqn:Hd; [| done].
  simpl in Hr.
  destruct (if String.eqb dissected.1 ACI_FAULT
            then match last dissected.2 with
                 | Some code =>
                     parent ← _dissect_key (removelast key);
                     Returned (Some code, parent)
                 | None => Raised IndexError
                 end
            else Returned (None, dissected)) as [[fault_code parent]|];
    [| done].
  simpl in Hr.
  destruct (subscript resource_map parent.1) as [entries|]; [| done].
  simpl in Hr. destruct entries as [|klass entries]; [done |]. simpl in Hr.
  destruct (identity_kwargs (identity_attributes klass) parent.2)
    as [kwargs|] eqn:Hk; [| done].
  simpl in Hr.
  destruct (comprehension _ (identity_attributes klass)) as [pairs|];
    [| done].
  simpl in Hr. injection Hr as <-. simpl.
  exists klass, kwargs. split; [done |]. by eapply identity_kwargs_names.
Qed.

(** C5 (as amended): when the manager raises [UnknownResourceType] for the
    resource of a key that the loop reaches, [get_resources] logs the
    warning, puts the identity-only shell built from the key into the
    result and goes on with the remaining keys; no [UnknownResourceType]
    ever leaves [get_resources]. *)
Theorem get_resources_unknown_type_is_shell keys1 key keys2 s acc s1 r s2 :
  loop keys1 ([], ∅) s = (Returned acc, s1) ->
  resolve key = Returned r ->
  r_id_tuple r ∉ acc.2 ->
  lookup r s1 = (Raised UnknownResourceType, s2) ->
  let final := aim_get_resources (keys1 ++ key :: keys2) s in
  final
  = (acc' ← loop keys2 (emitted r (r_res r) acc); mret acc'.1)
      (logged (Warn_not_defined (r_dissected r)) s2) /\
  Warn_not_defined (r_dissected r) ∈ LOG final.2 /\
  (forall out, final.1 = Returned out -> r_res r ∈ out) /\
  (exists klass kwargs,
      r_res r = Instance klass (py_dict kwargs) /\
      kwargs.*1 = identity_attributes klass) /\
  (forall keys' s', (aim_get_resources keys' s').1 <> Raised UnknownResourceType).
Proof.
  intros Hloop Hr Hnin Hl final.
  assert (final
          = (acc' ← loop keys2 (emitted r (r_res r) acc); mret acc'.1)
              (logged (Warn_not_defined (r_dissected r)) s2)) as Hfinal.
  { unfold final, AimDb_get_resources, get_resources_loop.
    unfold mbind at 1, M_bind at 1. rewrite for_fold_app.
    rewrite (M_bind_run _ _ _ _ _ Hloop). simpl.
    by rewrite (M_bind_run _ _ _ _ _ (step_unknown_type _ _ _ _ _ Hr Hnin Hl)). }
  split; [exact Hfinal |].
  pose proof (loop_grows keys2 (emitted r (r_res r) acc)
                (logged (Warn_not_defined (r_dissected r)) s2))
    as [Hlog Hres].
  split; [| split; [| split]].
  - rewrite Hfinal. unfold mbind, M_bind.
    destruct (loop keys2 _ _) as [[acc'|e] s3]; simpl in *;
      (eapply elem_of_prefix; [| exact Hlog]);
      apply elem_of_app; right; by apply list_elem_of_singleton.
  - intros out. rewrite Hfinal. unfold mbind, M_bind.
    destruct (loop keys2 _ _) as [[acc'|e] s3]; simpl in *; [| done].
    intros [= <-].
    apply (elem_of_prefix (acc.1 ++ [r_res r])); [| exact (Hres acc' eq_refl)].
    apply elem_of_app; right. by apply list_elem_of_singleton.
  - by eapply resolve_key_shell.
  - intros keys' s'. unfold AimDb_get_resources, mbind, M_bind.
    pose proof (loop_never_unknown_type keys' ([], ∅) s') as Hnever.
    destruct (loop keys' ([], ∅) s') as [[acc'|e] s3]; simpl in *; [done |].
    intros [= ->]. by apply Hnever.
Qed.

(** *** Identity tuples *)

Lemma emitted_distinct keys key r found acc :
  key ∈ keys -> resolve key = Returned r -> r_id_tuple r ∉ acc.2 ->
  hydrated_from r found ->
  distinct_identities keys acc ->
  distinct_identities keys (emitted r found acc).
Proof.
  intros Hkey Hr Hnin Hfrom (ids & Hnd & Hsub & Hall).
  exists (ids ++ [r_id_tuple r]). split; [| split].
  - rewrite NoDup_app. split; [done |]. split; [| apply NoDup_singleton].
    intros i Hi ->%list_elem_of_singleton. by apply Hnin, Hsub.
  - intros i [Hi | ->%list_elem_of_singleton]%elem_of_app; simpl.
    + apply elem_of_union_r. by apply Hsub.
    + apply elem_of_union_l. by apply elem_of_singleton.
  - simpl. apply Forall2_app; [done |].
    constructor; [| constructor]. by exists key, r.
Qed.

Lemma step_distinct keys key acc s acc' s' :
  key ∈ keys -> distinct_identities keys acc ->
  step acc key s = (Returned acc', s') ->
  distinct_identities keys acc'.
Proof.
  intros Hkey Hinv Hstep.
  destruct (resolve key) as [r|e] eqn:Hr;
    [| by rewrite (step_not_resolved _ _ _ _ Hr) in Hstep].
  rewrite (step_resolved _ _ _ _ Hr) in Hstep.
  destruct (decide (r_id_tuple r ∈ acc.2)) as [Hin|Hnin].
  { by injection Hstep as <- <-. }
  unfold try_except, mbind, M_bind in Hstep.
  destruct (lookup r s) as [[[found|]|e] s1] eqn:Hl; simpl in Hstep.
  - injection Hstep as <- <-.
    eapply emitted_distinct; eauto. right. by exists s, s1.
  - by injection Hstep as <- <-.
  - destruct e; try done. injection Hstep as <- <-.
    eapply emitted_distinct; eauto. by left.
Qed.

Lemma loop_distinct keys l acc s acc' s' :
  (forall key, key ∈ l -> key ∈ keys) ->
  distinct_identities keys acc ->
  loop l acc s = (Returned acc', s') ->
  distinct_identities keys acc'.
Proof.
  revert acc s. induction l as [|key l IH]; intros acc s Hsub Hinv Hloop.
  - by injection Hloop as <- <-.
  - unfold get_resources_loop in *. simpl in Hloop.
    unfold mbind, M_bind in Hloop.
    destruct (step acc key s) as [[acc1|e] s1] eqn:Hstep; [| done].
    eapply (IH acc1 s1); [| | exact Hloop].
    + intros k Hk. apply Hsub. by right.
    + eapply step_distinct; [| exact Hinv | exact Hstep].
      apply Hsub. by left.
Qed.

(** C7: the resources [get_resources] returns stand under pairwise
    distinct identity tuples: each one was hydrated from a key of the batch,
    and the identity tuples of these keys (the pairs of the resource's
    identity attributes and their values, followed by ['fault'] and the
    fault code for a fault key) form a list without repetition.  So two
    keys that resolve to one identity tuple contribute at most one
    resource. *)
Theorem get_resources_identity_tuples_distinct keys s out s' :
  aim_get_resources keys s = (Returned out, s') ->
  exists ids : list id_tuple,
    NoDup ids /\ Forall2 (identified keys) ids out.
Proof.
  unfold AimDb_get_resources, mbind, M_bind. intros Hget.
  destruct (loop keys ([], ∅) s) as [[acc|e] s1] eqn:Hloop; [| done].
  injection Hget as <- <-.
  destruct (loop_distinct keys keys ([], ∅) s acc s1) as (ids & Hnd & _ & Hall);
    [done | | exact Hloop | by exists ids].
  exists []. split; [apply NoDup_nil_2 |]. split; [| constructor].
  intros i Hi. by apply elem_of_nil in Hi.
Qed.

End GetResourcesTheorems.

(** A batch with a resource of the class the store does not know, a bridge
    domain and a fault: the shell of the unknown one is returned with the
    other two, and the warning is logged. *)
Lemma get_resources_unknown_type_is_shell_witness :
  (AimDb_get_resources scenario_resource_map store_get store_get_status
     ([] ++ exotic_key :: [bd1_key; fault_key]) fresh_db).1
  = Returned [exotic_x1; bd1; fault_F0123] /\
  Warn_not_defined ("vzExotic", ["x1"])%string
  ∈ LOG (AimDb_get_resources scenario_resource_map store_get store_get_status
           ([] ++ exotic_key :: [bd1_key; fault_key]) fresh_db).2.
Proof.
  destruct (get_resources_unknown_type_is_shell
              scenario_resource_map store_get store_get_status
              [] exotic_key [bd1_key; fault_key] fresh_db
              ([], ∅) fresh_db exotic_resolved fresh_db)
    as (Hfinal & Hlog & _).
  - reflexivity.
  - vm_compute. reflexivity.
  - apply not_elem_of_empty.
  - vm_compute. reflexivity.
  - split; [| exact Hlog].
    rewrite Hfinal. vm_compute. reflexivity.
Defined.

(** C5 (counterexample to the claim as stated): the ACI type [vzAny] has
    no entry in the resource map, so the key is of no known resource type;
    [get_resources] raises [KeyError] on it: nothing is logged, no shell is
    made, and the bridge domain that follows in the batch, which alone is
    returned, is never reached. *)
Lemma get_resources_unmapped_type_fails_batch :
  scenario_resource_map !! "vzAny"%string = None /\
  scenario_get_resources [unmapped_key; bd1_key] fresh_db
  = (Raised (KeyError "vzAny"), fresh_db) /\
  scenario_get_resources [bd1_key] fresh_db = (Returned [bd1], fresh_db).
Proof.
  split; [vm_compute; reflexivity |].
  split; vm_compute; reflexivity.
Qed.

(** A batch that names the bridge domain twice and its fault once: two
    resources come back, under two identity tuples. *)
Lemma get_resources_identity_tuples_distinct_witness :
  scenario_get_resources [bd1_key; fault_key; bd1_key] fresh_db
  = (Returned [bd1; fault_F0123], fresh_db) /\
  exists ids : list id_tuple,
    NoDup ids /\
    Forall2 (identified scenario_resource_map store_get store_get_status
               [bd1_key; fault_key; bd1_key])
      ids [bd1; fault_F0123].
Proof.
  assert (scenario_get_resources [bd1_key; fault_key; bd1_key] fresh_db
          = (Returned [bd1; fault_F0123], fresh_db)) as Hget
    by (vm_compute; reflexivity).
  split; [exact Hget |].
  exact (get_resources_identity_tuples_distinct
           scenario_resource_map store_get store_get_status
           [bd1_key; fault_key; bd1_key] fresh_db [bd1; fault_F0123] fresh_db
           Hget).
Defined.

(** ** [AimDbUniverse.push_resources] *)

Section PushResourcesTheorems.
Context {World : Type}.
Variable manager_create manager_delete : Obj -> M World unit.
Variable manager_set_fault manager_clear_fault : Obj -> Obj -> M World unit.
Variable convert : list Obj -> M World (list Obj).
Variable aci_decompose_with_type :
  string -> string -> outcome (list (string * string)).
Variable mo_dn : string -> list string -> outcome string.
Implicit Types (s : aim_db World) (method : string) (item : Obj).
Implicit Types (resources : list (string * list Obj)).
Implicit Types (items : list (string * Obj)).

Local Abbreviation item_body :=
  (push_item manager_create manager_delete manager_set_fault
     manager_clear_fault convert aci_decompose_with_type mo_dn).
Local Abbreviation guarded :=
  (push_guarded manager_create manager_delete manager_set_fault
     manager_clear_fault convert aci_decompose_with_type mo_dn).
Local Abbreviation attempted :=
  (attempted manager_create manager_delete manager_set_fault
     manager_clear_fault convert aci_decompose_with_type mo_dn).
Local Abbreviation aim_push_resources :=
  (AimDb_push_resources manager_create manager_delete manager_set_fault
     manager_clear_fault convert aci_decompose_with_type mo_dn).

Lemma guarded_run method item s :
  guarded method item s
  = (Returned tt,
     match item_body method item s with
     | (Returned _, s1) => s1
     | (Raised e, s1) => logged (Error_failed method item e) s1
     end).
Proof.
  unfold push_guarded, try_except.
  by destruct (item_body method item s) as [[[]|e] s1].
Qed.

Lemma bucket_run method (bucket : list Obj) s :
  for_each bucket (guarded method) s
  = (Returned tt, attempted (map (pair method) bucket) s).
Proof.
  revert s. induction bucket as [|item bucket IH]; intros s; simpl; [done |].
  by rewrite (M_bind_run _ _ _ _ _ (guarded_run method item s)), IH.
Qed.

Lemma attempted_app items1 items2 s :
  attempted (items1 ++ items2) s = attempted items2 (attempted items1 s).
Proof.
  revert s. induction items1 as [|[method item] items1 IH]; intros s; simpl;
    [done | apply IH].
Qed.

(** [push_resources] never raises: it attempts every item of every bucket,
    in order. *)
Lemma push_resources_run resources s :
  aim_push_resources resources s
  = (Returned tt, attempted (items_of resources) s).
Proof.
  revert s. unfold AimDb_push_resources, items_of.
  induction resources as [|[method bucket] resources IH]; intros s; simpl;
    [done |].
  rewrite (M_bind_run _ _ _ _ _ (bucket_run method bucket s)), IH.
  by rewrite attempted_app.
Qed.

(** *** The body of the [try] writes nothing to the log *)

Lemma keeps_log_bind {A B} (m : M (aim_db World) A)
    (k : A -> M (aim_db World) B) :
  keeps_log m -> (forall a, keeps_log (k a)) -> keeps_log (m ≫= k).
Proof.
  intros Hm Hk s. unfold mbind, M_bind. specialize (Hm s).
  destruct (m s) as [[a|e] s1]; simpl in *; [| done].
  by rewrite Hk.
Qed.

Lemma keeps_log_in_db {A} (call : M World A) : keeps_log (in_db call).
Proof. intros s. unfold in_db. by destruct (call (db s)). Qed.

Lemma keeps_log_eval {A} (o : outcome A) :
  keeps_log (eval o : M (aim_db World) A).
Proof. by intros s. Qed.

Lemma keeps_log_for_each {A} (l : list A) (body : A -> M (aim_db World) unit) :
  (forall x, keeps_log (body x)) -> keeps_log (for_each l body).
Proof.
  intros Hbody. induction l as [|x l IH]; simpl; [by intros s |].
  apply keeps_log_bind; [apply Hbody | by intros _].
Qed.

Lemma _retrieve_fault_parent_keeps_log fault :
  keeps_log (_retrieve_fault_parent convert aci_decompose_with_type mo_dn fault).
Proof.
  unfold _retrieve_fault_parent.
  apply keeps_log_bind; [apply keeps_log_eval |]. intros external.
  apply keeps_log_bind; [apply keeps_log_eval |]. intros decomposed.
  destruct (last (removelast decomposed)) as [segment|]; [| by intros s].
  apply keeps_log_bind; [apply keeps_log_eval |]. intros dn.
  apply keeps_log_bind; [apply keeps_log_in_db |]. intros converted.
  destruct converted; by intros s.
Qed.

Lemma push_item_keeps_log method item : keeps_log (item_body method item).
Proof.
  unfold push_item. apply keeps_log_bind.
  { destruct (String.eqb method "delete");
      [by intros s | apply keeps_log_in_db]. }
  intros converted. apply keeps_log_for_each. intros resource.
  destruct (is_AciFault resource).
  - apply keeps_log_bind; [apply _retrieve_fault_parent_keeps_log |].
    intros parent. apply keeps_log_bind; [apply keeps_log_eval |].
    intros apply_fault. apply keeps_log_in_db.
  - apply keeps_log_bind; [apply keeps_log_eval |]. intros _.
    destruct (String.eqb method "create"); apply keeps_log_in_db.
Qed.

End PushResourcesTheorems.

(** ** [AimDbUniverse.push_resources] against the specification *)

Section PushResourcesRefinement.
Context {World : Type}.
Variable manager_create manager_delete : Obj -> M World unit.
Variable manager_set_fault manager_clear_fault : Obj -> Obj -> M World unit.
Variable convert : list Obj -> M World (list Obj).
Variable aci_decompose_with_type :
  string -> string -> outcome (list (string * string)).
Variable mo_dn : string -> list string -> outcome string.
Implicit Types (s : aim_db World) (method : string) (item : Obj).
Implicit Types (resources : list (string * list Obj)).
Implicit Types (items : list (string * Obj)) (w : World).

Local Abbreviation item_body :=
  (push_item manager_create manager_delete manager_set_fault
     manager_clear_fault convert aci_decompose_with_type mo_dn).
Local Abbreviation attempted :=
  (attempted manager_create manager_delete manager_set_fault
     manager_clear_fault convert aci_decompose_with_type mo_dn).
Local Abbreviation resource_body method :=
  (fun resource : Obj =>
     if is_AciFault resource then
       parent ← _retrieve_fault_parent convert aci_decompose_with_type mo_dn
                  resource;
       apply_fault ← eval (fault_method manager_set_fault
                             manager_clear_fault method);
       in_db (apply_fault parent resource)
     else
       _ ← eval (fault_method manager_set_fault manager_clear_fault method);
       if String.eqb method "create" then in_db (manager_create resource)
       else in_db (manager_delete resource)).
Local Abbreviation recovered :=
  (parent_recovered convert aci_decompose_with_type mo_dn).
Local Abbreviation applied :=
  (resource_applied manager_create manager_delete manager_set_fault
     manager_clear_fault convert aci_decompose_with_type mo_dn).
Local Abbreviation all_applied :=
  (resources_applied manager_create manager_delete manager_set_fault
     manager_clear_fault convert aci_decompose_with_type mo_dn).
Local Abbreviation item_done :=
  (item_applied manager_create manager_delete manager_set_fault
     manager_clear_fault convert aci_decompose_with_type mo_dn).
Local Abbreviation items_done :=
  (items_applied manager_create manager_delete manager_set_fault
     manager_clear_fault convert aci_decompose_with_type mo_dn).

Lemma with_db_same s : with_db (db s) s = s.
Proof. by destruct s. Qed.

Lemma in_db_run {A} (call : M World A) s o w :
  call (db s) = (o, w) -> in_db call s = (o, with_db w s).
Proof. intros Hcall. unfold in_db. by rewrite Hcall. Qed.

(** [_retrieve_fault_parent] recovers the parent as the specification
    says. *)
Lemma parent_recovered_run fault parent s w :
  recovered fault parent (db s) w ->
  _retrieve_fault_parent convert aci_decompose_with_type mo_dn fault s
  = (Returned parent, with_db w s).
Proof.
  intros (external & segments & parent_type & parent_name & dn & others
          & Hexternal & Hsegments & Hlast & Hdn & Hconvert).
  unfold _retrieve_fault_parent, mbind, M_bind, eval.
  rewrite Hexternal, Hsegments, Hlast. simpl. rewrite Hdn.
  by rewrite (in_db_run _ _ _ _ Hconvert).
Qed.

(** The body of the inner loop applies a resource as the specification
    says. *)
Lemma resource_applied_run method resource s w :
  applied method resource (db s) w ->
  resource_body method resource s = (Returned tt, with_db w s).
Proof.
  unfold resource_applied.
  destruct (is_AciFault resource).
  - intros (parent & w1 & Hparent & Hfault).
    rewrite (M_bind_run _ _ _ _ _ (parent_recovered_run _ _ _ _ Hparent)).
    destruct Hfault as [[-> Hset] | [-> Hclear]];
      unfold fault_method, mbind, M_bind, eval; simpl.
    + by rewrite (in_db_run _ (with_db w1 s) _ _ Hset).
    + by rewrite (in_db_run _ (with_db w1 s) _ _ Hclear).
  - intros [[-> Hcreate] | [-> Hdelete]];
      unfold fault_method, mbind, M_bind, eval; simpl.
    + by rewrite (in_db_run _ _ _ _ Hcreate).
    + by rewrite (in_db_run _ _ _ _ Hdelete).
Qed.

Lemma resources_applied_run method converted s w :
  all_applied method converted (db s) w ->
  for_each converted (resource_body method) s = (Returned tt, with_db w s).
Proof.
  revert s. induction converted as [|resource converted IH]; intros s; simpl.
  - intros ->. by rewrite with_db_same.
  - intros (w1 & Hresource & Hrest).
    rewrite (M_bind_run _ _ _ _ _
               (resource_applied_run _ _ _ _ Hresource)).
    by rewrite (IH (with_db w1 s) Hrest).
Qed.

(** The body of the [try] processes an item as the specification says. *)
Lemma item_applied_run method item s w :
  item_done method item (db s) w ->
  item_body method item s = (Returned tt, with_db w s).
Proof.
  intros [[-> Hresources] | [-> (converted & w1 & Hconvert & Hresources)]];
    unfold push_item.
  - change (String.eqb "delete" "delete") with true. cbv iota.
    unfold mbind at 1, M_bind at 1, mret, M_ret.
    by apply resources_applied_run.
  - change (String.eqb "create" "delete") with false. cbv iota.
    rewrite (M_bind_run _ _ _ _ _ (in_db_run _ _ _ _ Hconvert)).
    by rewrite (resources_applied_run _ _ (with_db w1 s) _ Hresources).
Qed.

Lemma items_applied_run items s w :
  items_done items (db s) w -> attempted items s = with_db w s.
Proof.
  revert s. induction items as [|[method item] items IH]; intros s; simpl.
  - intros ->. by rewrite with_db_same.
  - intros (w1 & Hitem & Hrest).
    rewrite (item_applied_run _ _ _ _ Hitem).
    by rewrite (IH (with_db w1 s) Hrest).
Qed.

(** C6: when, in one [push_resources] call, the body of the [try] raises
    for one item, of either bucket, and every other item can be processed
    (its conversion and the manager calls it stands for return),
    [push_resources] returns normally; the exception is caught and logged,
    which is the one record the call adds to the log; and every other item
    is processed: the world the call leaves is the one reached by
    converting and applying, through [create], [delete], [set_fault] and
    [clear_fault] as appropriate, the items before the failing one, then
    whatever the failing item did before it raised, then the items after
    it. *)
Theorem push_resources_survives_one_failure
    resources before method item after s w1 e s2 w3 :
  items_of resources = before ++ (method, item) :: after ->
  items_applied manager_create manager_delete manager_set_fault
    manager_clear_fault convert aci_decompose_with_type mo_dn
    before (db s) w1 ->
  item_body method item (with_db w1 s) = (Raised e, s2) ->
  items_applied manager_create manager_delete manager_set_fault
    manager_clear_fault convert aci_decompose_with_type mo_dn
    after (db s2) w3 ->
  (AimDb_push_resources manager_create manager_delete manager_set_fault
     manager_clear_fault convert aci_decompose_with_type mo_dn
     resources s).1 = Returned tt /\
  db (AimDb_push_resources manager_create manager_delete manager_set_fault
        manager_clear_fault convert aci_decompose_with_type mo_dn
        resources s).2 = w3 /\
  LOG (AimDb_push_resources manager_create manager_delete manager_set_fault
         manager_clear_fault convert aci_decompose_with_type mo_dn
         resources s).2
  = LOG s ++ [Error_failed method item e].
Proof.
  intros Hitems Hbefore Hfail Hafter.
  rewrite push_resources_run, Hitems, attempted_app.
  rewrite (items_applied_run _ _ _ Hbefore). simpl. rewrite Hfail.
  rewrite (items_applied_run _ (logged (Error_failed method item e) s2) _
             Hafter).
  split; [done |]. split; [done |]. simpl.
  pose proof (push_item_keeps_log manager_create manager_delete
                manager_set_fault manager_clear_fault convert
                aci_decompose_with_type mo_dn method item (with_db w1 s))
    as Hlog.
  rewrite Hfail in Hlog. simpl in Hlog. by rewrite Hlog.
Qed.

End PushResourcesRefinement.

(** A push of the bridge domain, of a resource the store rejects and of a
    fault under [create], and of the bridge domain and of the fault under
    [delete]: the rejected one is logged, the four others are written. *)
Lemma push_resources_survives_one_failure_witness :
  (scenario_push_resources
     [("create", [bd1; exotic_x1; fault_F0123]);
      ("delete", [bd1; fault_F0123])]%string fresh_db).1 = Returned tt /\
  db (scenario_push_resources
        [("create", [bd1; exotic_x1; fault_F0123]);
         ("delete", [bd1; fault_F0123])]%string fresh_db).2
  = [Created bd1; Fault_set bd1 fault_F0123; Deleted bd1;
     Fault_cleared bd1 fault_F0123] /\
  LOG (scenario_push_resources
         [("create", [bd1; exotic_x1; fault_F0123]);
          ("delete", [bd1; fault_F0123])]%string fresh_db).2
  = LOG fresh_db ++ [Error_failed "create" exotic_x1 (OtherError "rejected")].
Proof.
  assert (forall w,
             parent_recovered scenario_convert scenario_decompose scenario_dn
               fault_F0123 bd1 w w) as Hparent.
  { intros w.
    exists "uni/tn-t1/BD-bd1/fault-F0123"%string,
      [("fvTenant", "t1"); ("fvBD", "bd1"); ("faultInst", "F0123")]%string,
      "fvBD"%string, "bd1"%string, "t1/bd1"%string, [].
    split; [vm_compute; reflexivity |]. split; [reflexivity |].
    split; [reflexivity |]. split; [reflexivity |]. reflexivity. }
  apply (push_resources_survives_one_failure
           store_create store_delete store_set_fault store_clear_fault
           scenario_convert scenario_decompose scenario_dn
           [("create", [bd1; exotic_x1; fault_F0123]);
            ("delete", [bd1; fault_F0123])]%string
           [("create", bd1)]%string "create" exotic_x1
           [("create", fault_F0123); ("delete", bd1);
            ("delete", fault_F0123)]%string
           fresh_db [Created bd1] (OtherError "rejected")
           (with_db [Created bd1] fresh_db)).
  - reflexivity.
  - exists [Created bd1]. split; [| reflexivity].
    right. split; [reflexivity |]. exists [bd1], [].
    split; [reflexivity |]. exists [Created bd1]. split; [| reflexivity].
    left. split; reflexivity.
  - vm_compute. reflexivity.
  - exists [Created bd1; Fault_set bd1 fault_F0123]. split.
    { right. split; [reflexivity |]. exists [fault_F0123], [Created bd1].
      split; [reflexivity |].
      exists [Created bd1; Fault_set bd1 fault_F0123].
      split; [| reflexivity].
      exists bd1, [Created bd1]. split; [apply Hparent |].
      left. split; reflexivity. }
    exists [Created bd1; Fault_set bd1 fault_F0123; Deleted bd1]. split.
    { left. split; [reflexivity |].
      exists [Created bd1; Fault_set bd1 fault_F0123; Deleted bd1].
      split; [| reflexivity]. right. split; reflexivity. }
    exists [Created bd1; Fault_set bd1 fault_F0123; Deleted bd1;
            Fault_cleared bd1 fault_F0123].
    split; [| reflexivity].
    left. split; [reflexivity |].
    exists [Created bd1; Fault_set bd1 fault_F0123; Deleted bd1;
            Fault_cleared bd1 fault_F0123].
    split; [| reflexivity].
    exists bd1, [Created bd1; Fault_set bd1 fault_F0123; Deleted bd1].
    split; [apply Hparent |]. right. split; reflexivity.
Defined.

(** ** [initialize] *)

Section InitializeTheorems.
Context {PyObject : Type}.
Variable get_option : PyObject -> string -> string -> outcome Z.
Implicit Types (o : universe_object PyObject) (args : list PyObject).

(** [HashTreeStoredUniverse.initialize(store, conf_mgr)], when the
    configuration manager has both options: it returns [self] and leaves
    the store, the configuration manager and the two options on the
    object. *)
Lemma HashTreeStoredUniverse_initialize_returns_self
    store conf_mgr max cooldown o :
  get_option conf_mgr "max_operation_retry" "aim" = Returned max ->
  get_option conf_mgr "retry_cooldown" "aim" = Returned cooldown ->
  HashTreeStoredUniverse_initialize get_option [store; conf_mgr] o
  = (Returned (object_id o),
     {| object_id := object_id o;
        context := Some store;
        conf_manager := Some conf_mgr;
        option_max_create_retry := Some max;
        option_retry_cooldown := Some cooldown;
        state_emptied := true;
        aim_db_attributes := aim_db_attributes o |}).
Proof.
  intros Hmax Hcooldown.
  unfold HashTreeStoredUniverse_initialize, BaseUniverse_initialize,
    mbind, M_bind, eval, modify, gets, mret, M_ret.
  simpl. rewrite Hmax. simpl. by rewrite Hcooldown.
Qed.

(** With any other number of arguments it raises [TypeError] and sets
    nothing. *)
Lemma HashTreeStoredUniverse_initialize_arity args o :
  length args <> 2%nat ->
  HashTreeStoredUniverse_initialize get_option args o = (Raised TypeError, o).
Proof. by destruct args as [|a [|b [|c args]]]. Qed.

(** C8 (the code on every input): [AimDbUniverse.initialize] raises
    [TypeError] whatever it is called with, and sets no attribute.  Called
    with a store and a configuration manager it has one argument too many;
    called with the one argument of its signature it hands that argument
    alone to [HashTreeStoredUniverse.initialize], which wants two. *)
Theorem AimDbUniverse_initialize_raises args o :
  AimDbUniverse_initialize get_option args o = (Raised TypeError, o).
Proof. by destruct args as [|db_session [|conf_mgr args]]. Qed.

End InitializeTheorems.

(** ** [AimDbUniverse] as a hash-tree-stored universe *)

Section AimDbUniverseTheorems.
Context {Tree World : Type} `{HashTree Tree}.
Variable resource_map : gmap string (list Klass).
Variable manager_get : Obj -> M World (option Obj).
Variable manager_get_status : Obj -> M World (option (list Obj)).
Variable manager_create manager_delete : Obj -> M World unit.
Variable manager_set_fault manager_clear_fault : Obj -> Obj -> M World unit.
Variable convert : list Obj -> M World (list Obj).
Variable aci_decompose_with_type :
  string -> string -> outcome (list (string * string)).
Variable mo_dn : string -> list string -> outcome string.
Variable find_changed :
  gmap string (option string) -> bool -> M World (gmap string Tree).

(** In [AimDbUniverse] both single-key methods are [get_resources] on the
    one-element list, so whatever they return is a list, of at most one
    resource. *)
Lemma AimDbUniverse_single_key (id : positive) (resource_key : Key)
    (s : aim_db World) :
  let universe :=
    AimDbUniverse resource_map manager_get manager_get_status
      manager_create manager_delete manager_set_fault manager_clear_fault
      convert aci_decompose_with_type mo_dn find_changed id in
  let batch :=
    AimDb_get_resources resource_map manager_get manager_get_status
      [resource_key] s in
  get_resource universe resource_key s = batch /\
  get_resource_for_delete universe resource_key s = batch /\
  forall out, batch.1 = Returned out -> (length out <= 1)%nat.
Proof.
  intros universe batch. split; [reflexivity |]. split; [reflexivity |].
  unfold batch, AimDb_get_resources, get_resources_loop. simpl.
  unfold mbind, M_bind.
  destruct (resolve_key resource_map resource_key) as [r|e] eqn:Hr.
  - rewrite (step_resolved _ _ _ _ _ _ _ Hr).
    destruct (decide (r_id_tuple r ∈ ([], ∅).2)); simpl.
    { intros out [= <-]. simpl. lia. }
    unfold try_except, mbind, M_bind.
    destruct (lookup_resource manager_get manager_get_status r s)
      as [[[found|]|e] s1]; simpl.
    + intros out [= <-]. simpl. lia.
    + intros out [= <-]. simpl. lia.
    + destruct e; simpl; try done. intros out [= <-]. simpl. lia.
  - by rewrite (step_not_resolved _ _ _ _ _ _ _ Hr).
Qed.

End AimDbUniverseTheorems.

(** ** The single-key methods *)

Section SingleKeyTheorems.
Context {Tree World : Type} `{HashTree Tree}.
Variable resource_map : gmap string (list Klass).
Variable manager_get : Obj -> M World (option Obj).
Variable manager_get_status : Obj -> M World (option (list Obj)).
Variable manager_create manager_delete : Obj -> M World unit.
Variable manager_set_fault manager_clear_fault : Obj -> Obj -> M World unit.
Variable convert : list Obj -> M World (list Obj).
Variable aci_decompose_with_type :
  string -> string -> outcome (list (string * string)).
Variable mo_dn : string -> list string -> outcome string.
Variable find_changed :
  gmap string (option string) -> bool -> M World (gmap string Tree).

(** C9 (as amended): in every hash-tree-stored universe [get_resource]
    returns what [get_resources] returns on the one-element list, and
    [get_resource_for_delete] what [get_resources_for_delete] returns on
    it, with the same effect.  In [AimDbUniverse] both are
    [get_resources] on that list, and what they return is a list, of at
    most one resource.  In a universe that inherits
    [get_resources_for_delete] from [HashTreeStoredUniverse], where its
    body is [pass], [get_resource_for_delete] returns [None]. *)
Theorem single_key_methods_return_batch_results (id : positive)
    (resource_key : Key) :
  (forall (W R : Type) (self : Universe Tree W R) (w : W),
      get_resource self resource_key w
      = get_resources self [resource_key] w /\
      get_resource_for_delete self resource_key w
      = get_resources_for_delete self [resource_key] w) /\
  (forall s : aim_db World,
      let universe :=
        AimDbUniverse resource_map manager_get manager_get_status
          manager_create manager_delete manager_set_fault manager_clear_fault
          convert aci_decompose_with_type mo_dn find_changed id in
      let batch :=
        AimDb_get_resources resource_map manager_get manager_get_status
          [resource_key] s in
      get_resource universe resource_key s = batch /\
      get_resource_for_delete universe resource_key s = batch /\
      forall out : list Obj,
        batch.1 = Returned out -> (length out <= 1)%nat) /\
  (forall (W R : Type) (self : Universe Tree W (option R)) (w : W),
      get_resources_for_delete self
      = HashTreeStoredUniverse_get_resources_for_delete ->
      get_resource_for_delete self resource_key w = (Returned None, w)).
Proof.
  split; [| split].
  - intros W R self w. split; reflexivity.
  - intros s. apply AimDbUniverse_single_key.
  - intros W R self w Hinherited.
    unfold get_resource_for_delete. by rewrite Hinherited.
Qed.

End SingleKeyTheorems.

(** C9 (counterexample to the claim as stated): a universe whose class
    leaves [get_resources_for_delete] as [HashTreeStoredUniverse] has it.
    [get_resource_for_delete] returns [None] for the key of [bd1]: the
    value of the batch method, as the claim says, but not a list. *)
Lemma get_resource_for_delete_inherited_returns_None :
  get_resource_for_delete (inheriting_universe 1 view_bd1) bd1_key []
  = (Returned None, []) /\
  get_resources_for_delete (inheriting_universe 1 view_bd1) [bd1_key] []
  = (Returned None, []) /\
  ~ (exists resources : list Obj,
        (get_resource_for_delete (inheriting_universe 1 view_bd1) bd1_key
           []).1 = Returned (Some resources)).
Proof.
  split; [reflexivity |]. split; [reflexivity |].
  intros (resources & Hlist). discriminate Hlist.
Qed.

(** ** The failure ledger, call by call *)

Section MoreLedgerTheorems.
Context {World : Type}.
Variable set_resource_sync_synced : Obj -> M World unit.
Variable set_resource_sync_error : Obj -> string -> M World unit.
Variable perform_harakiri : string -> M World unit.
Variables max_create_retry retry_cooldown : Z.
Implicit Types (s : ledger World) (c : ledger_call).

Local Abbreviation run :=
  (run_call set_resource_sync_synced set_resource_sync_error perform_harakiri
     max_create_retry retry_cooldown).
Local Abbreviation retry :=
  (_retry_until_max set_resource_sync_error max_create_retry retry_cooldown).
Local Abbreviation surrender := (_surrender_operation set_resource_sync_error).

Lemma in_world_log {A} (call : M World A) s :
  failure_log (in_world call s).2 = failure_log s.
Proof. unfold in_world. by destruct (call (world s)). Qed.

(** What one call does to the failure log: nothing, or it deletes the
    record of its object, or it sets it, to a count below the maximum if
    the call returns. *)
Lemma run_call_log c s :
  failure_log (run c s).2 = failure_log s \/
  exists id,
    _get_aim_object_identifier (call_object c) = Returned id /\
    (failure_log (run c s).2 = delete id (failure_log s) \/
     exists n t,
       failure_log (run c s).2 = <[id := (n, t)]> (failure_log s) /\
       ((run c s).1 = Returned tt -> n < max_create_retry)).
Proof.
  assert (forall now obj op reason,
             failure_log (retry now obj op reason s).2 = failure_log s \/
             exists id,
               _get_aim_object_identifier obj = Returned id /\
               (failure_log (retry now obj op reason s).2
                = delete id (failure_log s) \/
                exists n t,
                  failure_log (retry now obj op reason s).2
                  = <[id := (n, t)]> (failure_log s) /\
                  ((retry now obj op reason s).1 = Returned tt ->
                   n < max_create_retry))) as Hretry.
  { intros now obj op reason.
    unfold _retry_until_max, mbind, M_bind, eval, gets.
    destruct (_get_aim_object_identifier obj) as [id|e]; simpl; [| by left].
    destruct (match failure_log s !! id with
              | Some (n, t) => (n, Some t)
              | None => (0, None)
              end) as [failures last].
    destruct (cooldown_elapsed retry_cooldown now last); simpl; [| by left].
    rewrite lookup_insert_eq. right. exists id. split; [done |].
    destruct (max_create_retry <=? failures + 1) eqn:Hmax; simpl.
    - unfold in_world. simpl.
      destruct (set_resource_sync_error obj reason (world s)) as [[[]|e] w];
        simpl.
      + left. by rewrite delete_insert_eq.
      + right. eexists _, _. split; [done | done].
    - right. eexists _, _. split; [done |]. intros _. lia. }
  assert (forall obj op reason,
             failure_log (surrender obj op reason s).2 = failure_log s \/
             exists id,
               _get_aim_object_identifier obj = Returned id /\
               failure_log (surrender obj op reason s).2
               = delete id (failure_log s)) as Hsurrender.
  { intros obj op reason.
    unfold _surrender_operation, mbind, M_bind, eval, in_world.
    destruct (_get_aim_object_identifier obj) as [id|e]; simpl; [| by left].
    destruct (set_resource_sync_error obj reason (world s)) as [[[]|e] w];
      simpl; [| by left].
    right. by exists id. }
  assert (forall obj op reason error now,
             failure_log (error_handlers set_resource_sync_error
                            perform_harakiri max_create_retry retry_cooldown
                            now error obj op reason s).2 = failure_log s \/
             exists id,
               _get_aim_object_identifier obj = Returned id /\
               (failure_log (error_handlers set_resource_sync_error
                               perform_harakiri max_create_retry retry_cooldown
                               now error obj op reason s).2
                = delete id (failure_log s) \/
                exists n t,
                  failure_log (error_handlers set_resource_sync_error
                                 perform_harakiri max_create_retry
                                 retry_cooldown now error obj op reason s).2
                  = <[id := (n, t)]> (failure_log s) /\
                  ((error_handlers set_resource_sync_error
                      perform_harakiri max_create_retry retry_cooldown
                      now error obj op reason s).1 = Returned tt ->
                   n < max_create_retry))) as Hhandlers.
  { intros obj op reason error now. destruct error; simpl.
    - apply Hretry.
    - apply Hretry.
    - destruct (Hsurrender obj op reason) as [Hsame | (id & Hid & Hdel)];
        [by left | right]. exists id. split; [done | by left].
    - left. unfold _fail_agent. apply in_world_log.
    - by left. }
  destruct c as [obj | now obj reason error | now obj reason error]; simpl.
  - unfold creation_succeeded, mbind, M_bind, eval.
    destruct (_get_aim_object_identifier obj) as [id|e]; simpl; [| by left].
    right. exists id. split; [done |]. left.
    unfold update_failure_log, modify. simpl. by rewrite in_world_log.
  - apply Hhandlers.
  - apply Hhandlers.
Qed.

(** X1: no call ever touches the record of another object: the record
    under an identifier other than the one of the object reported is the
    same after the call, whether the call returns or raises. *)
Theorem ledger_call_keeps_other_records c s (id : list string) :
  _get_aim_object_identifier (call_object c) <> Returned id ->
  failure_log (run c s).2 !! id = failure_log s !! id.
Proof.
  intros Hother.
  destruct (run_call_log c s) as [-> | (id' & Hid & [-> | (n & t & -> & _)])];
    [done | |].
  - apply lookup_delete_ne. intros ->. by apply Hother.
  - apply lookup_insert_ne. intros ->. by apply Hother.
Qed.

Lemma run_call_keeps_counts_below c s :
  counts_below max_create_retry s ->
  (run c s).1 = Returned tt ->
  counts_below max_create_retry (run c s).2.
Proof.
  intros Hbelow Hret id n t.
  destruct (run_call_log c s)
    as [-> | (id' & Hid & [-> | (n' & t' & -> & Hn)])].
  - apply Hbelow.
  - intros [_ Hl]%lookup_delete_Some. by eapply Hbelow.
  - destruct (decide (id' = id)) as [->|Hne].
    + rewrite lookup_insert_eq. intros [= <- <-]. by apply Hn.
    + rewrite lookup_insert_ne by done. apply Hbelow.
Qed.

(** X2: the counts kept in the failure log stay below the maximum through
    any history of calls that all return: a record never holds a count
    that has reached [max_create_retry]. *)
Theorem ledger_history_keeps_counts_below (calls : list ledger_call) s s' :
  counts_below max_create_retry s ->
  for_each calls run s = (Returned tt, s') ->
  counts_below max_create_retry s'.
Proof.
  revert s. induction calls as [|c calls IH]; intros s Hbelow Hrun.
  - by injection Hrun as <-.
  - simpl in Hrun. unfold mbind, M_bind in Hrun.
    pose proof (run_call_keeps_counts_below c s Hbelow) as Hstep.
    destruct (run c s) as [[[]|e] s1]; [| done].
    eapply IH; [| exact Hrun]. by apply Hstep.
Qed.

(** X3: a transient or unknown failure, of a creation or of a deletion,
    reported less than [retry_cooldown] after the timestamp of the object's
    record changes neither the ledger nor the manager's world, provided the
    timestamp is not zero. *)
Theorem failure_within_cooldown_ignored c now obj reason error id n t s :
  (c = Creation_failed now obj reason error \/
   c = Deletion_failed now obj reason error) ->
  (error = OPERATION_TRANSIENT \/ error = UNKNOWN) ->
  _get_aim_object_identifier obj = Returned id ->
  failure_log s !! id = Some (n, t) ->
  t <> 0 -> now - t < retry_cooldown ->
  run c s = (Returned tt, s).
Proof.
  intros Hc Herror Hid Hlog Ht Hlt.
  assert (forall op, retry now obj op reason s = (Returned tt, s)) as Hretry.
  { intros op. unfold _retry_until_max, mbind, M_bind, eval, gets. simpl.
    rewrite Hid, Hlog. simpl. unfold cooldown_elapsed.
    assert ((t =? 0) = false) as -> by lia.
    by assert ((retry_cooldown <=? now - t) = false) as -> by lia. }
  destruct Hc as [-> | ->], Herror as [-> | ->]; apply Hretry.
Qed.

(** X4: a success gives the object its whole retry budget back: after
    [creation_succeeded], the next transient failure is counted as the
    first one, whatever the record was before and however short the time
    since. *)
Theorem success_resets_failure_count obj id now reason s w1 :
  _get_aim_object_identifier obj = Returned id ->
  set_resource_sync_synced obj (world s) = (Returned tt, w1) ->
  1 < max_create_retry ->
  (run (Creation_succeeded obj) ;;
   run (Creation_failed now obj reason OPERATION_TRANSIENT)) s
  = (Returned tt,
     {| failure_log := <[id := (1, now)]> (failure_log s); world := w1 |}).
Proof.
  intros Hid Hsync Hmax. simpl.
  unfold creation_succeeded, creation_failed, _fail_aim_synchronization,
    error_handlers, _retry_until_max, update_failure_log, in_world, modify,
    gets, eval, mbind, M_bind, mret, M_ret.
  rewrite Hid. simpl. rewrite Hsync. simpl.
  rewrite lookup_delete_eq. simpl. rewrite lookup_insert_eq.
  assert ((max_create_retry <=? 0 + 1) = false) as -> by lia.
  simpl. by rewrite insert_delete_eq.
Qed.

(** X5: the record is written before the manager is asked to mark the
    object, and popped only when that call returns: if
    [set_resource_sync_error] raises at the failure that reaches the
    maximum, the exception leaves [creation_failed] and the record stays,
    with the count that reached the maximum. *)
Theorem surrender_failure_keeps_record obj id now reason e s w1 :
  _get_aim_object_identifier obj = Returned id ->
  cooldown_elapsed retry_cooldown now (recorded s id).2 = true ->
  max_create_retry <= (recorded s id).1 + 1 ->
  set_resource_sync_error obj reason (world s) = (Raised e, w1) ->
  run (Creation_failed now obj reason OPERATION_TRANSIENT) s
  = (Raised e,
     {| failure_log := <[id := ((recorded s id).1 + 1, now)]> (failure_log s);
        world := w1 |}).
Proof.
  intros Hid Hel Hle Hset. simpl.
  unfold creation_failed, _fail_aim_synchronization, error_handlers,
    _retry_until_max, mbind, M_bind, eval, gets, recorded in *. simpl.
  rewrite Hid. simpl.
  destruct (failure_log s !! id) as [[n t]|] eqn:Hlog; simpl in *;
    try rewrite Hel; simpl; rewrite lookup_insert_eq;
    (assert ((max_create_retry <=? _ + 1) = true) as -> by lia);
    unfold in_world; simpl; by rewrite Hset.
Qed.

End MoreLedgerTheorems.

(** *** The identifier of an object *)

Lemma comprehension_ext {A B} (f g : A -> outcome B) (l : list A) :
  (forall x, x ∈ l -> f x = g x) -> comprehension f l = comprehension g l.
Proof.
  induction l as [|x l IH]; intros Hfg; simpl; [done |].
  rewrite (Hfg x) by (by left). rewrite IH; [done |].
  intros y Hy. apply Hfg. by right.
Qed.

(** X6: the identifier under which the ledger keeps an object depends on
    its class and on the values of its identity attributes only: two
    instances of a class that agree on these have the same identifier,
    whatever their other attributes. *)
Theorem identifier_ignores_other_attributes (klass : Klass)
    (attrs1 attrs2 : gmap string string) :
  (forall x, x ∈ identity_attributes klass -> attrs1 !! x = attrs2 !! x) ->
  _get_aim_object_identifier (Instance klass attrs1)
  = _get_aim_object_identifier (Instance klass attrs2).
Proof.
  intros Hagree. unfold _get_aim_object_identifier. simpl.
  rewrite (comprehension_ext (getattr (Instance klass attrs1))
             (getattr (Instance klass attrs2))); [done |].
  intros x Hx. simpl. by rewrite (Hagree x Hx).
Qed.

(** *** The theorems on the recording manager *)

Lemma ledger_call_keeps_other_records_witness :
  failure_log
    (scenario_run (Creation_failed 0 bd1 "timeout" OPERATION_TRANSIENT)
       (ledger_with bd2_id (2, 5))).2
    !! bd2_id
  = failure_log (ledger_with bd2_id (2, 5)) !! bd2_id.
Proof.
  apply (ledger_call_keeps_other_records recording_sync_synced
           recording_sync_error recording_harakiri 3 10
           (Creation_failed 0 bd1 "timeout" OPERATION_TRANSIENT)
           (ledger_with bd2_id (2, 5)) bd2_id).
  vm_compute. intros Hid. discriminate Hid.
Defined.

Lemma ledger_history_keeps_counts_below_witness :
  counts_below 3 (for_each scenario_history scenario_run fresh_ledger).2.
Proof.
  apply (ledger_history_keeps_counts_below recording_sync_synced
           recording_sync_error recording_harakiri 3 10
           scenario_history fresh_ledger).
  - intros id n t Hrecord. simpl in Hrecord.
    rewrite lookup_empty in Hrecord. discriminate Hrecord.
  - vm_compute. reflexivity.
Defined.

Lemma failure_within_cooldown_ignored_witness :
  scenario_run (Deletion_failed 15 bd1 "timeout" UNKNOWN) (ledger_with bd1_id (1, 10))
  = (Returned tt, ledger_with bd1_id (1, 10)).
Proof.
  apply (failure_within_cooldown_ignored recording_sync_synced
           recording_sync_error recording_harakiri 3 10
           (Deletion_failed 15 bd1 "timeout" UNKNOWN) 15 bd1 "timeout" UNKNOWN
           bd1_id 1 10 (ledger_with bd1_id (1, 10))).
  - right. reflexivity.
  - right. reflexivity.
  - vm_compute. reflexivity.
  - vm_compute. reflexivity.
  - lia.
  - lia.
Defined.

Lemma success_resets_failure_count_witness :
  (scenario_run (Creation_succeeded bd1) ;;
   scenario_run (Creation_failed 101 bd1 "timeout" OPERATION_TRANSIENT))
    (ledger_with bd1_id (2, 100))
  = (Returned tt,
     {| failure_log := <[bd1_id := (1, 101)]> {[ bd1_id := (2, 100) ]};
        world := [Set_sync_synced bd1] |}).
Proof.
  apply (success_resets_failure_count recording_sync_synced
           recording_sync_error recording_harakiri 3 10
           bd1 bd1_id 101 "timeout" (ledger_with bd1_id (2, 100))
           [Set_sync_synced bd1]).
  - vm_compute. reflexivity.
  - reflexivity.
  - lia.
Defined.

Lemma surrender_failure_keeps_record_witness :
  run_call recording_sync_synced failing_sync_error recording_harakiri 3 10
    (Creation_failed 50 bd1 "timeout" OPERATION_TRANSIENT)
    (ledger_with bd1_id (2, 10))
  = (Raised (OtherError "store unreachable"),
     {| failure_log :=
          <[bd1_id := ((recorded (ledger_with bd1_id (2, 10)) bd1_id).1 + 1, 50)]>
            {[ bd1_id := (2, 10) ]};
        world := [Set_sync_error bd1 "timeout"] |}).
Proof.
  apply (surrender_failure_keeps_record recording_sync_synced
           failing_sync_error recording_harakiri 3 10
           bd1 bd1_id 50 "timeout" (OtherError "store unreachable")
           (ledger_with bd1_id (2, 10)) [Set_sync_error bd1 "timeout"]).
  - vm_compute. reflexivity.
  - vm_compute. reflexivity.
  - vm_compute. intros Hgt. discriminate Hgt.
  - reflexivity.
Defined.

Lemma identifier_ignores_other_attributes_witness :
  _get_aim_object_identifier bd1
  = _get_aim_object_identifier
      (Instance BridgeDomain
         (py_dict [("tenant_name", "t1"); ("name", "bd1");
                   ("display_name", "first")]%string)).
Proof.
  apply (identifier_ignores_other_attributes BridgeDomain).
  intros x Hx.
  repeat (apply elem_of_cons in Hx as [-> | Hx]; [vm_compute; reflexivity |]).
  by apply elem_of_nil in Hx.
Defined.

(** ** Key dissection *)

Lemma index_bar_cons (c : ascii) (s : string) :
  String.index 0 "|" (String c s)
  = if Ascii.eqb c "|" then Some 0%nat
    else match String.index 0 "|" s with
         | Some n => Some (S n)
         | None => None
         end.
Proof.
  change (String.index 0 "|" (String c s))
    with (if String.prefix "|" (String c s) then Some 0%nat
          else match String.index 0 "|" s with
               | Some n => Some (S n)
               | None => None
               end).
  change (String.prefix "|" (String c s))
    with (match ascii_dec "|" c with
          | left _ => String.prefix "" s
          | right _ => false
          end).
  destruct (ascii_dec "|" c) as [<-|Hne].
  - by destruct s.
  - assert (Ascii.eqb c "|" = false) as ->; [| done].
    apply Ascii.eqb_neq. congruence.
Qed.

Lemma index_bar_segment (t n : string) :
  no_bar t ->
  String.index 0 "|" (String.append t (String "|" n)) = Some (String.length t).
Proof.
  unfold no_bar. induction t as [|c t IH]; intros Hno.
  - simpl. by destruct n.
  - change (String.append (String c t) (String "|" n))
      with (String c (String.append t (String "|" n))).
    rewrite index_bar_cons in Hno |- *.
    destruct (Ascii.eqb c "|"); [done |].
    destruct (String.index 0 "|" t) eqn:Ht; [done |].
    by rewrite IH.
Qed.

Lemma substring_prefix (t rest : string) :
  String.substring 0 (String.length t) (String.append t rest) = t.
Proof.
  induction t as [|c t IH]; simpl; [by destruct rest | by rewrite IH].
Qed.

Lemma substring_all (s : string) :
  String.substring 0 (String.length s) s = s.
Proof. induction s as [|c s IH]; simpl; [done | by rewrite IH]. Qed.

Lemma substring_suffix (t rest : string) :
  String.substring (String.length t) (String.length rest)
    (String.append t rest) = rest.
Proof.
  induction t as [|c t IH]; simpl; [apply substring_all | exact IH].
Qed.

Lemma length_append (t rest : string) :
  String.length (String.append t rest)
  = (String.length t + String.length rest)%nat.
Proof. induction t as [|c t IH]; simpl; [done | by rewrite IH]. Qed.

Lemma append_cons (c : ascii) (t rest : string) :
  String.append (String c t) rest = String c (String.append t rest).
Proof. reflexivity. Qed.

Lemma append_bar (t n : string) :
  String.append (String.append t "|") n = String.append t (String "|" n).
Proof.
  induction t as [|c t IH]; [done |]. by rewrite !append_cons, IH.
Qed.

(** The type and the name of a segment whose type has no bar. *)
Lemma segment_type tn :
  no_bar tn.1 ->
  py_slice_to (segment tn) (py_find "|" (segment tn)) = tn.1.
Proof.
  intros Hno. unfold py_find, py_slice_to, py_clip, segment.
  rewrite (index_bar_segment _ _ Hno), length_append. simpl String.length.
  assert ((Z.of_nat (String.length tn.1) <? 0) = false) as ->
    by (apply Z.ltb_ge; lia).
  rewrite Z.min_l by lia. rewrite Nat2Z.id. apply substring_prefix.
Qed.

Lemma segment_name tn :
  no_bar tn.1 ->
  py_slice_from (segment tn) (py_find "|" (segment tn) + 1) = tn.2.
Proof.
  intros Hno. unfold py_find, py_slice_from, py_clip, segment.
  rewrite (index_bar_segment _ _ Hno), length_append.
  change (String.length (String "|" tn.2)) with (S (String.length tn.2)).
  assert ((Z.of_nat (String.length tn.1) + 1 <? 0) = false) as ->
    by (apply Z.ltb_ge; lia).
  rewrite Z.min_l by lia.
  replace (Z.to_nat (Z.of_nat (String.length tn.1) + 1))
    with (String.length (String.append tn.1 "|")).
  2: { rewrite length_append. simpl. lia. }
  replace (Z.to_nat (Z.of_nat (String.length tn.1 + S (String.length tn.2))
                     - (Z.of_nat (String.length tn.1) + 1)))
    with (String.length tn.2) by lia.
  replace (String.append tn.1 (String "|" tn.2))
    with (String.append (String.append tn.1 "|") tn.2).
  2: { apply append_bar. }
  apply substring_suffix.
Qed.

Lemma last_map {A B} (f : A -> B) (l : list A) :
  last (map f l) = f <$> last l.
Proof.
  induction l as [|x [|y l] IH]; [done | done |].
  exact IH.
Qed.

(** X7: dissection undoes the encoding of a key: for a key made of the
    segments ["type|name"] of a list of pairs that is not empty and whose
    types hold no bar, [_dissect_key] returns the type of the last pair and
    the names of all of them, in order (a name may hold bars). *)
Theorem dissect_key_of_segments (pairs : list (string * string)) tn :
  last pairs = Some tn ->
  Forall (fun p => no_bar p.1) pairs ->
  _dissect_key (map segment pairs) = Returned (tn.1, map snd pairs).
Proof.
  intros Hlast Hno. unfold _dissect_key.
  rewrite last_map, Hlast. simpl. f_equal. f_equal.
  - apply segment_type. rewrite Forall_forall in Hno. apply Hno.
    by apply last_Some_elem_of.
  - rewrite map_map. clear Hlast.
    induction Hno as [|p pairs Hp Hno IH]; simpl; [done |].
    by rewrite segment_name, IH.
Qed.

(** X8: a leaf without a bar is still dissected: [find] gives -1, so the
    type is the leaf without its last character and the name is the whole
    leaf. *)
Theorem dissect_key_leaf_without_bar (key : Key) (leaf : string) :
  no_bar leaf ->
  exists names,
    _dissect_key (key ++ [leaf])
    = Returned (String.substring 0 (String.length leaf - 1) leaf,
                names ++ [leaf]).
Proof.
  unfold no_bar. intros Hno.
  exists (map (fun x => py_slice_from x (py_find "|" x + 1)) key).
  unfold _dissect_key. rewrite last_snoc, map_app. simpl.
  unfold py_find. rewrite Hno. f_equal. f_equal.
  - unfold py_slice_to, py_clip. f_equal.
    change (-1 <? 0) with true. cbv iota. lia.
  - f_equal. unfold py_slice_from, py_clip. simpl. f_equal.
    rewrite Z.min_l by lia. simpl. rewrite Z.sub_0_r, Nat2Z.id.
    apply substring_all.
Qed.

(** The key of [bd1] is made of two well-formed segments. *)
Lemma dissect_key_of_segments_witness :
  _dissect_key (map segment [("fvTenant", "t1"); ("fvBD", "bd1")]%string)
  = Returned ("fvBD", ["t1"; "bd1"])%string.
Proof.
  apply (dissect_key_of_segments
           [("fvTenant", "t1"); ("fvBD", "bd1")]%string ("fvBD", "bd1")%string).
  - reflexivity.
  - repeat constructor.
Defined.

(** A last segment without a bar loses its last character: the type read
    off ["bd1"] is ["bd"]. *)
Lemma dissect_key_leaf_without_bar_witness :
  exists names,
    _dissect_key (["fvTenant|t1"%string] ++ ["bd1"%string])
    = Returned (String.substring 0 (String.length "bd1" - 1) "bd1",
                names ++ ["bd1"%string]).
Proof.
  apply (dissect_key_leaf_without_bar ["fvTenant|t1"%string] "bd1").
  reflexivity.
Defined.

(** ** More on the reconciler *)

Section MoreReconcilerTheorems.
Context {Tree W R : Type} `{HashTree Tree}.
Implicit Types (self other : Universe Tree W R).
Implicit Types (s : reconciliation W R).
Implicit Types (my_state other_state : gmap string Tree).

(** The entry of a tenant that [my_state] lacks is left alone. *)
Lemma voted_absent_tenant self skip always other_state my_state candidates t :
  my_state !! t = None ->
  voted self skip always other_state (map_to_list my_state) candidates !! t
  = candidates !! t.
Proof.
  intros Hnone. apply voted_other_tenant.
  intros [[t' tree] [-> Hin]]%list_elem_of_fmap.
  apply elem_of_map_to_list in Hin. simpl in Hnone. congruence.
Qed.

(** X9: with [always_vote_deletion], or with [skip_dummy] for a tenant whose
    tree has no root or a dummy root, [_reconcile] votes for the deletion of
    the tenant whatever the other universe holds for it: [self] is added to
    the tenant's votes, and there is no dissent. *)
Theorem reconcile_forced_vote self other skip always s
    my_state w0 other_state w1 tenant tree :
  state self (rworld s) = (Returned my_state, w0) ->
  get_optimized_state other my_state w0 = (Returned other_state, w1) ->
  my_state !! tenant = Some tree ->
  always = true \/ (skip = true /\ no_root_or_dummy tree = true) ->
  delete_candidates (_reconcile self other skip always s).2 !! tenant
  = Some ({[universe_id self]} ∪ default ∅ (delete_candidates s !! tenant)).
Proof.
  intros Hmine Htheirs Htree Hforced.
  rewrite (reconcile_candidates _ _ _ _ _ _ _ _ _ Hmine Htheirs).
  rewrite (voted_state_tenant _ _ _ _ _ _ _ _ Htree).
  unfold vote_entry.
  destruct Hforced as [-> | [-> ->]]; [done |]. by rewrite orb_true_r.
Qed.

(** X10: [_reconcile] leaves alone the votes of every tenant it has no
    reason to vote on: a tenant that is not in [self.state], and, unless
    voting is forced, a tenant whose tree there has a root. *)
Theorem reconcile_keeps_other_votes self other skip always s
    my_state w0 other_state w1 tenant :
  state self (rworld s) = (Returned my_state, w0) ->
  get_optimized_state other my_state w0 = (Returned other_state, w1) ->
  my_state !! tenant = None \/
  (exists tree node,
      my_state !! tenant = Some tree /\ root tree = Some node /\
      always = false /\ (skip = false \/ dummy node = false)) ->
  delete_candidates (_reconcile self other skip always s).2 !! tenant
  = delete_candidates s !! tenant.
Proof.
  intros Hmine Htheirs Hcase.
  rewrite (reconcile_candidates _ _ _ _ _ _ _ _ _ Hmine Htheirs).
  destruct Hcase as [Hnone | (tree & node & Htree & Hroot & -> & Hskip)].
  - by apply voted_absent_tenant.
  - rewrite (voted_state_tenant _ _ _ _ _ _ _ _ Htree).
    unfold vote_entry, no_root_or_dummy, no_root. rewrite Hroot. simpl.
    destruct Hskip as [-> | ->]; [done |]. by rewrite andb_false_r.
Qed.

(** X11: only tenants that both states hold are diffed: when the two
    states have no tenant in common, [_reconcile] returns [False] and
    neither hydrates nor pushes, whatever the trees and the flags; so a
    tenant that only the other universe holds is never created here. *)
Theorem reconcile_without_common_tenant self other skip always s
    my_state w0 other_state w1 :
  state self (rworld s) = (Returned my_state, w0) ->
  get_optimized_state other my_state w0 = (Returned other_state, w1) ->
  (forall t, my_state !! t = None \/ other_state !! t = None) ->
  (_reconcile self other skip always s).1 = Returned false /\
  pushes (_reconcile self other skip always s).2 = pushes s /\
  rworld (_reconcile self other skip always s).2 = w1.
Proof.
  intros Hmine Htheirs Hdisjoint.
  rewrite (reconcile_run _ _ _ _ _ _ _ _ _ Hmine Htheirs). cbv zeta.
  destruct (proj2 (nothing_to_do_iff my_state other_state)) as [-> ->];
    [| done].
  intros t tree mine Ho Hm. destruct (Hdisjoint t); congruence.
Qed.

Lemma vote_entry_idempotent self skip always other_state tenant tree votes :
  vote_entry self skip always other_state tenant tree
    (vote_entry self skip always other_state tenant tree votes)
  = vote_entry self skip always other_state tenant tree votes.
Proof.
  assert (forall v : gset positive,
             ({[universe_id self]} ∪ ({[universe_id self]} ∪ v) : gset positive)
             = {[universe_id self]} ∪ v) as Hunion
    by (intros v; by rewrite (assoc_L (∪)), (idemp_L (∪))).
  unfold vote_entry.
  destruct (always || skip && no_root_or_dummy tree);
    [simpl; by rewrite Hunion |].
  destruct (no_root tree); [| done].
  destruct (match other_state !! tenant with
            | Some other_tree => no_root other_tree
            | None => true
            end); [simpl; by rewrite Hunion |].
  destruct votes as [v|]; [| done]. simpl. f_equal.
  apply set_eq. intros x. rewrite !elem_of_difference. tauto.
Qed.

(** X12: voting is idempotent: a second [_reconcile] that reads the same two
    states as the first one leaves every vote as the first one left it. *)
Theorem reconcile_twice_votes_once self other skip always s
    my_state w0 other_state w1 w2 w3 :
  state self (rworld s) = (Returned my_state, w0) ->
  get_optimized_state other my_state w0 = (Returned other_state, w1) ->
  let s1 := (_reconcile self other skip always s).2 in
  state self (rworld s1) = (Returned my_state, w2) ->
  get_optimized_state other my_state w2 = (Returned other_state, w3) ->
  delete_candidates (_reconcile self other skip always s1).2
  = delete_candidates s1.
Proof.
  intros Hmine Htheirs s1 Hmine' Htheirs'.
  rewrite (reconcile_candidates _ _ _ _ _ _ _ _ _ Hmine' Htheirs').
  unfold s1. rewrite (reconcile_candidates _ _ _ _ _ _ _ _ _ Hmine Htheirs).
  apply map_eq. intros t.
  destruct (my_state !! t) as [tree|] eqn:Ht.
  - rewrite !(voted_state_tenant _ _ _ _ _ _ _ _ Ht).
    apply vote_entry_idempotent.
  - by rewrite !(voted_absent_tenant _ _ _ _ _ _ _ Ht).
Qed.

End MoreReconcilerTheorems.

(** The theorems on the universes in memory of the scenarios. *)
Lemma reconcile_forced_vote_witness :
  delete_candidates
    (_reconcile (memory_universe 1 view_bd1) (memory_universe 2 view_bd1)
       false true (starting ∅)).2 !! "t1"%string
  = Some ({[ 1%positive ]} ∪ default ∅ ((∅ : gmap string (gset positive))
                                         !! "t1"%string)).
Proof.
  apply (reconcile_forced_vote
           (memory_universe 1 view_bd1) (memory_universe 2 view_bd1)
           false true (starting ∅) view_bd1 [] view_bd1 [] "t1"%string
           [bd1_key]).
  - reflexivity.
  - reflexivity.
  - reflexivity.
  - left. reflexivity.
Defined.

Lemma reconcile_keeps_other_votes_witness :
  delete_candidates
    (_reconcile (memory_universe 1 view_bd1) (memory_universe 2 view_none)
       false false (starting {[ "t1"%string := {[ 2%positive ]} ]})).2
    !! "t1"%string
  = delete_candidates
      (starting {[ "t1"%string := {[ 2%positive ]} ]}) !! "t1"%string.
Proof.
  apply (reconcile_keeps_other_votes
           (memory_universe 1 view_bd1) (memory_universe 2 view_none)
           false false (starting {[ "t1"%string := {[ 2%positive ]} ]})
           view_bd1 [] view_none [] "t1"%string).
  - reflexivity.
  - reflexivity.
  - right. exists [bd1_key], {| dummy := false |}.
    split; [reflexivity |]. split; [reflexivity |]. split; [reflexivity |].
    left. reflexivity.
Defined.

Lemma reconcile_without_common_tenant_witness :
  (_reconcile (memory_universe 1 view_bd1) (memory_universe 2 view_none)
     false false (starting ∅)).1 = Returned false /\
  pushes (_reconcile (memory_universe 1 view_bd1) (memory_universe 2 view_none)
            false false (starting ∅)).2 = pushes (starting ∅) /\
  rworld (_reconcile (memory_universe 1 view_bd1) (memory_universe 2 view_none)
            false false (starting ∅)).2 = [].
Proof.
  apply (reconcile_without_common_tenant
           (memory_universe 1 view_bd1) (memory_universe 2 view_none)
           false false (starting ∅) view_bd1 [] view_none []).
  - reflexivity.
  - reflexivity.
  - intros t. right. apply lookup_empty.
Defined.

Lemma reconcile_twice_votes_once_witness :
  delete_candidates
    (_reconcile (memory_universe 1 view_empty_t1) (memory_universe 2 view_none)
       false false
       (_reconcile (memory_universe 1 view_empty_t1)
          (memory_universe 2 view_none) false false (starting ∅)).2).2
  = delete_candidates
      (_reconcile (memory_universe 1 view_empty_t1)
         (memory_universe 2 view_none) false false (starting ∅)).2.
Proof.
  apply (reconcile_twice_votes_once
           (memory_universe 1 view_empty_t1) (memory_universe 2 view_none)
           false false (starting ∅) view_empty_t1 [] view_none [] [] []).
  - reflexivity.
  - reflexivity.
  - vm_compute. reflexivity.
  - reflexivity.
Defined.

(** ** More on [get_resources] *)

Section MoreGetResourcesTheorems.
Context {World : Type}.
Variable resource_map : gmap string (list Klass).
Variable manager_get : Obj -> M World (option Obj).
Variable manager_get_status : Obj -> M World (option (list Obj)).
Implicit Types (s : aim_db World) (acc : list Obj * gset id_tuple).
Implicit Types (r : resolved) (key : Key) (keys : list Key).

Local Abbreviation resolve := (resolve_key resource_map).
Local Abbreviation lookup := (lookup_resource manager_get manager_get_status).
Local Abbreviation step :=
  (get_resources_step resource_map manager_get manager_get_status).
Local Abbreviation loop :=
  (get_resources_loop resource_map manager_get manager_get_status).
Local Abbreviation aim_get_resources :=
  (AimDb_get_resources resource_map manager_get manager_get_status).

(** X13: a key that cannot be resolved (its type is not in the resource map,
    it has too few segments) and a manager exception other than
    [UnknownResourceType] both abort the batch: [get_resources] raises
    that exception at the first such key, returns none of the resources
    collected from the keys before it, and never looks at the keys after
    it. *)
Theorem get_resources_aborts keys1 key keys2 s acc s1 e s2 :
  loop keys1 ([], ∅) s = (Returned acc, s1) ->
  ((s2 = s1 /\ resolve key = Raised e) \/
   (exists r,
       resolve key = Returned r /\ (r_id_tuple r ∉ acc.2) /\
       lookup r s1 = (Raised e, s2) /\ e <> UnknownResourceType)) ->
  AimDb_get_resources resource_map manager_get manager_get_status
    (keys1 ++ key :: keys2) s
  = (Raised e, s2).
Proof.
  intros Hloop Hcase.
  unfold AimDb_get_resources, get_resources_loop.
  apply M_bind_raise. rewrite for_fold_app.
  rewrite (M_bind_run _ _ _ _ _ Hloop). simpl. apply M_bind_raise.
  destruct Hcase as [[-> Hr] | (r & Hr & Hnin & Hl & He)].
  - by apply step_not_resolved.
  - by eapply step_lookup_raises.
Qed.

Lemma step_length key acc s acc' s' :
  step acc key s = (Returned acc', s') ->
  (length acc'.1 <= S (length acc.1))%nat.
Proof.
  intros Hstep.
  destruct (resolve key) as [r|e] eqn:Hr;
    [| by rewrite (step_not_resolved _ _ _ _ _ _ _ Hr) in Hstep].
  rewrite (step_resolved _ _ _ _ _ _ _ Hr) in Hstep.
  destruct (decide (r_id_tuple r ∈ acc.2)).
  { injection Hstep as <- <-. lia. }
  unfold try_except, mbind, M_bind in Hstep.
  destruct (lookup r s) as [[[found|]|e] s1]; simpl in Hstep.
  - injection Hstep as <- <-. simpl. rewrite length_app. simpl. lia.
  - injection Hstep as <- <-. lia.
  - destruct e; try done. injection Hstep as <- <-. simpl.
    rewrite length_app. simpl. lia.
Qed.

Lemma loop_length keys acc s acc' s' :
  loop keys acc s = (Returned acc', s') ->
  (length acc'.1 <= length acc.1 + length keys)%nat.
Proof.
  revert acc s. induction keys as [|key keys IH]; intros acc s Hloop.
  - injection Hloop as <- <-. simpl. lia.
  - unfold get_resources_loop in *. simpl in Hloop.
    unfold mbind, M_bind in Hloop.
    destruct (step acc key s) as [[acc1|e] s1] eqn:Hstep; [| done].
    apply step_length in Hstep. apply IH in Hloop. simpl. lia.
Qed.

(** X14: [get_resources] returns at most one resource per key of the
    batch. *)
Theorem get_resources_length keys s out s' :
  AimDb_get_resources resource_map manager_get manager_get_status keys s
  = (Returned out, s') ->
  (length out <= length keys)%nat.
Proof.
  unfold AimDb_get_resources, mbind, M_bind. intros Hget.
  destruct (loop keys ([], ∅) s) as [[acc|e] s1] eqn:Hloop; [| done].
  injection Hget as <- <-. by apply loop_length in Hloop.
Qed.

(** *** The identity tuple of a key *)

Lemma fault_part_pairs (pairs : list (string * string)) :
  fault_part (inl <$> pairs) = [].
Proof. induction pairs as [|p pairs IH]; [done | exact IH]. Qed.

Lemma comprehension_pairs (res : Obj) (attributes : list string)
    (elems : id_tuple) :
  comprehension
    (fun x => v ← getattr res x; Returned (inl (x, v) : id_elem)) attributes
  = Returned elems ->
  exists values,
    comprehension (getattr res) attributes = Returned values /\
    elems = inl <$> zip attributes values.
Proof.
  revert elems. induction attributes as [|x attributes IH]; intros elems.
  - intros [= <-]. by exists [].
  - simpl. destruct (getattr res x) as [v|]; [| done]. simpl.
    destruct (comprehension _ attributes) as [rest|]; [| done]. simpl.
    intros [= <-]. destruct (IH rest eq_refl) as (values & -> & ->).
    by exists (v :: values).
Qed.

(** The identity tuple of a resolved key: the pairs of the identity
    attributes of the resource and their values, followed by ['fault'] and
    the fault code when the key is a fault key with a code that is not
    empty. *)
Lemma resolve_key_id_tuple key r :
  resolve key = Returned r ->
  exists klass attrs values,
    r_res r = Instance klass attrs /\
    comprehension (getattr (r_res r)) (identity_attributes klass)
    = Returned values /\
    r_id_tuple r
    = (inl <$> zip (identity_attributes klass) values) ++
      match r_fault_code r with
      | Some code => if truthy (Some code) then [inr "fault"; inr code] else []
      | None => []
      end.
Proof.
  unfold resolve_key. intros Hr.
  destruct (_dissect_key key) as [dissected|]; [| done]. simpl in Hr.
  destruct (if String.eqb dissected.1 ACI_FAULT
            then match last dissected.2 with
                 | Some code =>
                     parent ← _dissect_key (removelast key);
                     Returned (Some code, parent)
                 | None => Raised IndexError
                 end
            else Returned (None, dissected)) as [[fault_code parent]|];
    [| done].
  simpl in Hr.
  destruct (subscript resource_map parent.1) as [entries|]; [| done].
  simpl in Hr. destruct entries as [|klass entries]; [done |]. simpl in Hr.
  destruct (identity_kwargs (identity_attributes klass) parent.2)
    as [kwargs|]; [| done].
  simpl in Hr.
  destruct (comprehension _ (identity_attributes klass)) as [pairs|] eqn:Hp;
    [| done].
  simpl in Hr. injection Hr as <-. simpl.
  destruct (comprehension_pairs (Instance klass (py_dict kwargs)) _ _ Hp)
    as (values & Hv & ->).
  exists klass, (py_dict kwargs), values. split; [done |]. split; [done |].
  destruct fault_code as [code|]; [| by rewrite app_nil_r].
  unfold truthy. destruct (negb (String.eqb code ""));
    [done | by rewrite app_nil_r].
Qed.

Lemma resolve_key_fault_part key r :
  resolve key = Returned r ->
  fault_part (r_id_tuple r)
  = match r_fault_code r with
    | Some code => if truthy (Some code) then ["fault"%string; code] else []
    | None => []
    end.
Proof.
  intros (klass & attrs & values & _ & _ & ->)%resolve_key_id_tuple.
  unfold fault_part. rewrite omap_app.
  fold (fault_part (inl <$> zip (identity_attributes klass) values)).
  rewrite fault_part_pairs.
  destruct (r_fault_code r) as [code|]; [| done].
  unfold truthy. by destruct (negb (String.eqb code "")).
Qed.

(** X15: two keys that resolve to the same identity tuple agree on whether
    they carry a fault code that is not empty, and when they do they carry
    the same code.  ([if fault_code:] is false of the empty string as of
    [None], so a fault key with an empty code counts as carrying none.) *)
Theorem same_identity_same_fault key1 key2 r1 r2 :
  resolve key1 = Returned r1 ->
  resolve key2 = Returned r2 ->
  r_id_tuple r1 = r_id_tuple r2 ->
  truthy (r_fault_code r1) = truthy (r_fault_code r2) /\
  (truthy (r_fault_code r1) = true -> r_fault_code r1 = r_fault_code r2).
Proof.
  intros Hr1 Hr2 Heq.
  pose proof (resolve_key_fault_part _ _ Hr1) as H1.
  pose proof (resolve_key_fault_part _ _ Hr2) as H2.
  rewrite Heq, H2 in H1. clear Heq H2.
  destruct (r_fault_code r1) as [code1|], (r_fault_code r2) as [code2|];
    simpl in *.
  - destruct (negb (String.eqb code1 "")), (negb (String.eqb code2 ""));
      try done. by injection H1 as ->.
  - by destruct (negb (String.eqb code1 "")).
  - by destruct (negb (String.eqb code2 "")).
  - done.
Qed.

(** *** The shell of a key, read back *)

Lemma identity_kwargs_zip attributes ids kwargs :
  identity_kwargs attributes ids = Returned kwargs ->
  kwargs = zip attributes ids /\ (length attributes <= length ids)%nat.
Proof.
  revert ids kwargs.
  induction attributes as [|y attributes IH]; intros ids kwargs Hk; simpl in *.
  - injection Hk as <-. split; [done | lia].
  - destruct ids as [|v ids]; [done |]. simpl in Hk.
    destruct (identity_kwargs attributes ids) as [rest|] eqn:Hrest; [| done].
    simpl in Hk. injection Hk as <-.
    destruct (IH _ _ Hrest) as [-> Hlen]. split; [done | simpl; lia].
Qed.

Lemma py_dict_insert_lookup (kwargs : list (string * string))
    (d : gmap string string) (y v : string) :
  NoDup kwargs.*1 -> (y, v) ∈ kwargs ->
  foldl (fun d kv => <[kv.1 := kv.2]> d) d kwargs !! y = Some v.
Proof.
  revert d. induction kwargs as [|[y' v'] kwargs IH]; intros d Hnd Hin.
  - by apply elem_of_nil in Hin.
  - simpl in Hnd. apply NoDup_cons in Hnd as [Hfresh Hnd]. simpl.
    apply elem_of_cons in Hin as [[= -> ->] | Hin]; [| by apply IH].
    clear IH Hnd. revert d.
    induction kwargs as [|[y'' v''] kwargs IH]; intros d; simpl.
    + by rewrite lookup_insert_eq.
    + simpl in Hfresh. apply not_elem_of_cons in Hfresh as [Hne Hfresh].
      rewrite insert_insert_ne by done. by apply IH.
Qed.

Lemma py_dict_lookup (kwargs : list (string * string)) (y v : string) :
  NoDup kwargs.*1 -> (y, v) ∈ kwargs -> py_dict kwargs !! y = Some v.
Proof. apply py_dict_insert_lookup. Qed.

Lemma comprehension_cons {A B} (f : A -> outcome B) (x : A) (l : list A) :
  comprehension f (x :: l)
  = (y ← f x; ys ← comprehension f l; Returned (y :: ys)).
Proof. reflexivity. Qed.

Lemma getattr_Instance klass (attrs : gmap string string) (x v : string) :
  attrs !! x = Some v -> getattr (Instance klass attrs) x = Returned v.
Proof. intros Hx. simpl. by rewrite Hx. Qed.

Lemma getattr_py_dict klass (kwargs l : list (string * string)) :
  NoDup kwargs.*1 -> (forall p, p ∈ l -> p ∈ kwargs) ->
  comprehension (getattr (Instance klass (py_dict kwargs))) l.*1
  = Returned l.*2.
Proof.
  intros Hnd. induction l as [|[y v] l IH]; intros Hsub; [done |].
  change ((((y, v) :: l).*1)) with (y :: l.*1).
  rewrite comprehension_cons.
  rewrite (getattr_Instance _ _ y v)
    by (apply py_dict_lookup; [done | apply Hsub; by left]).
  rewrite IH; [done |]. intros p Hp. apply Hsub. by right.
Qed.

(** X16: the shell built from a key reads back what the key says: when the
    identity attributes of its class are pairwise distinct, the shell holds
    under each of them the name dissected at the same position, so the
    identifier the ledger computes for it is the class name followed by the
    first names of the key, and its identity tuple pairs the attributes
    with these names. *)
Theorem resolved_shell_reads_back key r klass entries :
  resolve key = Returned r ->
  resource_map !! (r_dissected r).1 = Some (klass :: entries) ->
  NoDup (identity_attributes klass) ->
  let names :=
    take (length (identity_attributes klass)) (r_dissected r).2 in
  _get_aim_object_identifier (r_res r) = Returned (klass_name klass :: names) /\
  r_id_tuple r
  = (inl <$> zip (identity_attributes klass) names) ++
    match r_fault_code r with
    | Some code => if truthy (Some code) then [inr "fault"; inr code] else []
    | None => []
    end.
Proof.
  intros Hr Hmap Hnd names.
  destruct (resolve_key_id_tuple _ _ Hr)
    as (klass' & attrs & values & Hres & Hvalues & Htuple).
  assert (klass' = klass /\
          exists kwargs,
            attrs = py_dict kwargs /\
            identity_kwargs (identity_attributes klass) (r_dissected r).2
            = Returned kwargs) as [-> (kwargs & -> & Hk)].
  { revert Hr Hres Hmap. unfold resolve_key. intros Hr.
    destruct (_dissect_key key) as [dissected|]; [| done]. simpl in Hr.
    destruct (if String.eqb dissected.1 ACI_FAULT
              then match last dissected.2 with
                   | Some code =>
                       parent ← _dissect_key (removelast key);
                       Returned (Some code, parent)
                   | None => Raised IndexError
                   end
              else Returned (None, dissected)) as [[fault_code parent]|];
      [| done].
    simpl in Hr. unfold subscript in Hr.
    destruct (resource_map !! parent.1) as [entries'|] eqn:Hentries;
      [| done].
    simpl in Hr. destruct entries' as [|k entries']; [done |]. simpl in Hr.
    destruct (identity_kwargs (identity_attributes k) parent.2)
      as [kwargs|] eqn:Hk; [| done].
    simpl in Hr.
    destruct (comprehension _ (identity_attributes k)) as [pairs|]; [| done].
    simpl in Hr. injection Hr as <-. simpl.
    intros [= <- <-]. rewrite Hentries. intros [= <- <-].
    split; [done |]. by exists kwargs. }
  destruct (identity_kwargs_zip _ _ _ Hk) as [Hzip Hlen].
  assert (kwargs.*1 = identity_attributes klass) as Hfst.
  { rewrite Hzip. apply fst_zip. lia. }
  assert (kwargs.*2 = names) as Hsnd.
  { rewrite Hzip. unfold names. clear -Hlen.
    revert Hlen. generalize (r_dissected r).2 as ids.
    induction (identity_attributes klass) as [|y l IH]; intros ids Hlen;
      [done |].
    destruct ids as [|v ids]; simpl in *; [lia |]. f_equal. apply IH. lia. }
  assert (values = names) as ->.
  { rewrite Hres in Hvalues.
    pose proof (getattr_py_dict klass kwargs kwargs) as Hread.
    rewrite Hfst, Hsnd in Hread.
    rewrite Hread in Hvalues; [by injection Hvalues as <- | done | done]. }
  split; [| exact Htuple].
  unfold _get_aim_object_identifier. rewrite Hres in *. simpl.
  by rewrite Hvalues.
Qed.

(** X17: the scan of a status stops at the first fault that carries the
    code wanted and returns it; the faults after it are not read, and a
    status without such a fault gives nothing. *)
Theorem find_fault_first_match (code : string) (before after : list Obj)
    (fault : Obj) :
  Forall (fun other =>
            exists c, getattr other "fault_code" = Returned c /\ c <> code)
         before ->
  (getattr fault "fault_code" = Returned code ->
   find_fault code (before ++ fault :: after) = Returned (Some fault)) /\
  find_fault code before = Returned None.
Proof.
  intros Hbefore.
  induction Hbefore as [|other before (c & Hc & Hne) Hbefore [IH1 IH2]].
  - split; [| done]. intros Hcode. simpl. rewrite Hcode. simpl.
    by rewrite String.eqb_refl.
  - simpl. rewrite Hc. simpl.
    assert (String.eqb c code = false) as -> by (by apply String.eqb_neq).
    done.
Qed.

End MoreGetResourcesTheorems.

(** *** The theorems on the store of the scenarios *)

Lemma get_resources_aborts_witness :
  scenario_get_resources ([] ++ unmapped_key :: [bd1_key]) fresh_db
  = (Raised (KeyError "vzAny"), fresh_db).
Proof.
  apply (get_resources_aborts scenario_resource_map store_get
           store_get_status [] unmapped_key [bd1_key] fresh_db
           ([], ∅) fresh_db (KeyError "vzAny") fresh_db).
  - reflexivity.
  - left. split; [reflexivity |]. vm_compute. reflexivity.
Defined.

Lemma get_resources_length_witness :
  (length [bd1; fault_F0123] <= length [bd1_key; fault_key; bd1_key])%nat.
Proof.
  apply (get_resources_length scenario_resource_map store_get
           store_get_status [bd1_key; fault_key; bd1_key] fresh_db
           [bd1; fault_F0123] fresh_db).
  vm_compute. reflexivity.
Defined.

Lemma same_identity_same_fault_witness :
  truthy (r_fault_code bd1_fault_resolved)
  = truthy (r_fault_code bd1_fault_resolved) /\
  (truthy (r_fault_code bd1_fault_resolved) = true ->
   r_fault_code bd1_fault_resolved = r_fault_code bd1_fault_resolved).
Proof.
  apply (same_identity_same_fault scenario_resource_map
           fault_key fault_key_alias bd1_fault_resolved bd1_fault_resolved).
  - vm_compute. reflexivity.
  - vm_compute. reflexivity.
  - reflexivity.
Defined.

Lemma resolved_shell_reads_back_witness :
  _get_aim_object_identifier (r_res bd1_resolved)
  = Returned (klass_name BridgeDomain
              :: take (length (identity_attributes BridgeDomain))
                   (r_dissected bd1_resolved).2) /\
  r_id_tuple bd1_resolved
  = (inl <$> zip (identity_attributes BridgeDomain)
               (take (length (identity_attributes BridgeDomain))
                  (r_dissected bd1_resolved).2)) ++
    match r_fault_code bd1_resolved with
    | Some code => if truthy (Some code) then [inr "fault"%string; inr code]
                   else []
    | None => []
    end.
Proof.
  apply (resolved_shell_reads_back scenario_resource_map
           bd1_key bd1_resolved BridgeDomain []).
  - vm_compute. reflexivity.
  - vm_compute. reflexivity.
  - apply (bool_decide_unpack _). vm_compute. exact I.
Defined.

Lemma find_fault_first_match_witness :
  (getattr fault_F0123 "fault_code" = Returned "F0123"%string ->
   find_fault "F0123" ([fault_F0999] ++ fault_F0123 :: [])
   = Returned (Some fault_F0123)) /\
  find_fault "F0123" [fault_F0999] = Returned None.
Proof.
  apply (find_fault_first_match "F0123" [fault_F0999] [] fault_F0123).
  constructor; [| constructor].
  exists "F0999"%string. split; [vm_compute; reflexivity |].
  intros Hcode. discriminate Hcode.
Defined.

(** ** More on [push_resources] *)

Section MorePushResourcesTheorems.
Context {World : Type}.
Variable manager_create manager_delete : Obj -> M World unit.
Variable manager_set_fault manager_clear_fault : Obj -> Obj -> M World unit.
Variable convert : list Obj -> M World (list Obj).
Variable aci_decompose_with_type :
  string -> string -> outcome (list (string * string)).
Variable mo_dn : string -> list string -> outcome string.
Implicit Types (s : aim_db World) (method : string) (item : Obj).
Implicit Types (resources : list (string * list Obj)).
Implicit Types (items : list (string * Obj)).

Local Abbreviation item_body :=
  (push_item manager_create manager_delete manager_set_fault
     manager_clear_fault convert aci_decompose_with_type mo_dn).
Local Abbreviation guarded :=
  (push_guarded manager_create manager_delete manager_set_fault
     manager_clear_fault convert aci_decompose_with_type mo_dn).
Local Abbreviation attempted :=
  (attempted manager_create manager_delete manager_set_fault
     manager_clear_fault convert aci_decompose_with_type mo_dn).
Local Abbreviation aim_push_resources :=
  (AimDb_push_resources manager_create manager_delete manager_set_fault
     manager_clear_fault convert aci_decompose_with_type mo_dn).
Local Abbreviation retrieve_parent :=
  (_retrieve_fault_parent convert aci_decompose_with_type mo_dn).

Lemma attempted_log items s :
  LOG s `prefix_of` LOG (attempted items s) /\
  (length (LOG (attempted items s)) <= length (LOG s) + length items)%nat.
Proof.
  revert s. induction items as [|[method item] items IH]; intros s; simpl.
  - split; [done | lia].
  - pose proof (push_item_keeps_log manager_create manager_delete
                  manager_set_fault manager_clear_fault convert
                  aci_decompose_with_type mo_dn method item s) as Hbody.
    destruct (item_body method item s) as [[[]|e] s1]; simpl in Hbody.
    + destruct (IH s1) as [Hpre Hlen]. rewrite Hbody in *.
      split; [done | lia].
    + destruct (IH (logged (Error_failed method item e) s1)) as [Hpre Hlen].
      simpl in *. rewrite length_app in Hlen. rewrite Hbody in *. simpl in *.
      split; [| lia]. etrans; [| exact Hpre]. by apply prefix_app_r.
Qed.

(** X18: [push_resources] never raises, whatever the manager and the
    converter do: it returns normally for every map, keeps what was in the
    log before and adds at most one record for each item of the map. *)
Theorem push_resources_never_raises resources s :
  (AimDb_push_resources manager_create manager_delete manager_set_fault
     manager_clear_fault convert aci_decompose_with_type mo_dn
     resources s).1 = Returned tt /\
  LOG s `prefix_of` LOG (aim_push_resources resources s).2 /\
  (length (LOG (aim_push_resources resources s).2)
   <= length (LOG s) + length (items_of resources))%nat.
Proof.
  rewrite push_resources_run. simpl. split; [done |]. apply attempted_log.
Qed.

(** X19: pushing a map in two parts is pushing it at once: the call on the
    buckets of [resources1] followed by those of [resources2] does what the
    call on [resources1] followed by the call on [resources2] does. *)
Theorem push_resources_app resources1 resources2 s :
  AimDb_push_resources manager_create manager_delete manager_set_fault
    manager_clear_fault convert aci_decompose_with_type mo_dn
    (resources1 ++ resources2) s
  = (aim_push_resources resources1 ;; aim_push_resources resources2) s.
Proof.
  rewrite (M_bind_run _ _ _ _ _ (push_resources_run _ _ _ _ _ _ _ resources1 s)).
  rewrite !push_resources_run. unfold items_of.
  by rewrite flat_map_app, attempted_app.
Qed.

(** X20: a fault whose distinguished name decomposes into the fault
    segment alone, or into nothing, has no parent.  When such a fault is
    the first resource an item stands for (the item itself under
    [delete]; under any other method the first resource the converter
    makes of the item, whatever else it makes of it and whatever the
    conversion does to the store), the search for the parent raises
    [IndexError] before the converter is called for the parent: the item
    is logged with [IndexError], and [set_fault], [clear_fault], [create]
    and [delete] are not called for it, so the world stays as the
    conversion of the item left it. *)
Theorem push_fault_without_parent
    method item fault rest external segments s w :
  (method = "delete"%string /\ item = fault /\ rest = [] /\ w = db s) \/
  (method <> "delete"%string /\
   convert [item] (db s) = (Returned (fault :: rest), w)) ->
  is_AciFault fault = true ->
  getattr fault "external_identifier" = Returned external ->
  aci_decompose_with_type external ACI_FAULT = Returned segments ->
  (length segments <= 1)%nat ->
  push_guarded manager_create manager_delete manager_set_fault
    manager_clear_fault convert aci_decompose_with_type mo_dn method item s
  = (Returned tt,
     logged (Error_failed method item IndexError)
       {| db := w; LOG := LOG s; _served_tenants := _served_tenants s |}).
Proof.
  intros Hitem Hfault Hext Hsegments Hlen.
  assert (forall s0 : aim_db World,
             _retrieve_fault_parent convert aci_decompose_with_type mo_dn
               fault s0 = (Raised IndexError, s0)) as Hparent.
  { intros s0.
    unfold _retrieve_fault_parent, mbind, M_bind, eval. rewrite Hext. simpl.
    rewrite Hsegments. simpl.
    destruct segments as [|segment [|segment' segments]]; simpl in *;
      [done | done | lia]. }
  unfold push_guarded, try_except, push_item.
  destruct Hitem as [(-> & -> & -> & ->) | [Hmethod Hconvert]].
  - change (String.eqb "delete" "delete") with true. cbv iota.
    unfold mbind at 1, M_bind at 1, mret, M_ret. simpl. rewrite Hfault.
    unfold mbind at 1, M_bind at 1. unfold mbind at 1, M_bind at 1.
    rewrite Hparent. by destruct s.
  - apply String.eqb_neq in Hmethod. rewrite Hmethod.
    unfold mbind at 1, M_bind at 1, in_db. rewrite Hconvert. simpl.
    rewrite Hfault.
    unfold mbind at 1, M_bind at 1. unfold mbind at 1, M_bind at 1.
    by rewrite Hparent.
Qed.

(** X21: a bucket under a key other than ['create'] and ['delete'] writes
    nothing: its item is converted, the first resource that comes out fails
    on [fault_method[method]] with [KeyError] (when it is no fault), and the
    item is logged; [create], [delete], [set_fault] and [clear_fault] are
    not called. *)
Theorem push_under_other_method method item resource rest w s :
  method <> "create"%string -> method <> "delete"%string ->
  convert [item] (db s) = (Returned (resource :: rest), w) ->
  is_AciFault resource = false ->
  guarded method item s
  = (Returned tt,
     logged (Error_failed method item (KeyError method))
       {| db := w; LOG := LOG s; _served_tenants := _served_tenants s |}).
Proof.
  intros Hcreate Hdelete Hconvert Hfault.
  apply String.eqb_neq in Hcreate, Hdelete.
  unfold push_guarded, try_except, push_item.
  rewrite Hdelete. unfold mbind at 1, M_bind at 1, in_db.
  rewrite Hconvert. simpl. rewrite Hfault.
  unfold mbind at 1, M_bind at 1. unfold mbind at 1, M_bind at 1.
  unfold fault_method, eval. by rewrite Hcreate, Hdelete.
Qed.

End MorePushResourcesTheorems.

(** *** The theorems on the store of the scenarios *)

(** An ACI fault record pushed under [create]: the converter makes the
    fault [F0123] of it, and the decomposer finds no parent in its name. *)
Lemma push_fault_without_parent_witness :
  push_guarded store_create store_delete store_set_fault store_clear_fault
    fault_convert decompose_fault_only scenario_dn
    "create" aci_fault_F0123 fresh_db
  = (Returned tt,
     logged (Error_failed "create" aci_fault_F0123 IndexError)
       {| db := []; LOG := LOG fresh_db;
          _served_tenants := _served_tenants fresh_db |}).
Proof.
  apply (push_fault_without_parent store_create store_delete store_set_fault
           store_clear_fault fault_convert decompose_fault_only scenario_dn
           "create" aci_fault_F0123 fault_F0123 []
           "uni/tn-t1/BD-bd1/fault-F0123"
           [("faultInst", "F0123")]%string fresh_db []).
  - right. split; [intros Hmethod; discriminate Hmethod | reflexivity].
  - reflexivity.
  - vm_compute. reflexivity.
  - reflexivity.
  - simpl. lia.
Defined.

Lemma push_under_other_method_witness :
  push_guarded store_create store_delete store_set_fault store_clear_fault
    scenario_convert scenario_decompose scenario_dn "update" bd1 fresh_db
  = (Returned tt,
     logged (Error_failed "update" bd1 (KeyError "update"))
       {| db := []; LOG := LOG fresh_db;
          _served_tenants := _served_tenants fresh_db |}).
Proof.
  apply (push_under_other_method store_create store_delete store_set_fault
           store_clear_fault scenario_convert scenario_decompose scenario_dn
           "update" bd1 bd1 [] [] fresh_db).
  - intros Hmethod. discriminate Hmethod.
  - intros Hmethod. discriminate Hmethod.
  - reflexivity.
  - reflexivity.
Defined.

(** ** The state of the AIM database universes, and [initialize] *)

Section MoreStateTheorems.
Context {Tree : Type} `{HashTree Tree} {World : Type}.
Variable resource_map : gmap string (list Klass).
Variable manager_get : Obj -> M World (option Obj).
Variable manager_get_status : Obj -> M World (option (list Obj)).
Variable manager_create manager_delete : Obj -> M World unit.
Variable manager_set_fault manager_clear_fault : Obj -> Obj -> M World unit.
Variable convert : list Obj -> M World (list Obj).
Variable aci_decompose_with_type :
  string -> string -> outcome (list (string * string)).
Variable mo_dn : string -> list string -> outcome string.
Variable find_changed :
  gmap string (option string) -> bool -> M World (gmap string Tree).
Implicit Types (s : aim_db World) (other_state : gmap string Tree).

Lemma optimized_request_without_hash served other_state :
  (forall tenant tree,
      tenant ∈ served -> other_state !! tenant = Some tree ->
      root_full_hash tree = None) ->
  optimized_request served other_state = gset_to_gmap None served.
Proof.
  intros Hnone. apply map_eq. intros t. unfold optimized_request.
  rewrite request_loop_lookup, lookup_empty, lookup_gset_to_gmap.
  destruct (decide (t ∈ elements served)) as [Hin|Hnin].
  - apply elem_of_elements in Hin. rewrite option_guard_True by done.
    destruct (other_state !! t) as [tree|] eqn:Htree; simpl; [| done].
    by rewrite (Hnone t tree Hin Htree).
  - rewrite option_guard_False; [done | by rewrite <- elem_of_elements].
Qed.

(** X22: when the other state knows no root hash of a served tenant (it
    lacks the tenant, or the tenant's tree is empty), [get_optimized_state]
    is [state]: it asks [find_changed] what [_get_state] asks, with the
    same [operational] flag.  So it is for [AimDbUniverse], where the flag is
    off, and for [AimDbOperationalUniverse], where it is on. *)
Theorem get_optimized_state_without_hashes_is_state id other_state s :
  (forall tenant tree,
      tenant ∈ _served_tenants s -> other_state !! tenant = Some tree ->
      root_full_hash tree = None) ->
  let universe :=
    AimDbUniverse resource_map manager_get manager_get_status
      manager_create manager_delete manager_set_fault manager_clear_fault
      convert aci_decompose_with_type mo_dn find_changed id in
  let operational_universe :=
    AimDbOperationalUniverse resource_map manager_get manager_get_status
      manager_create manager_delete manager_set_fault manager_clear_fault
      convert aci_decompose_with_type mo_dn find_changed id in
  get_optimized_state universe other_state s = state universe s /\
  get_optimized_state operational_universe other_state s
  = state operational_universe s.
Proof.
  intros Hnone universe operational_universe. simpl.
  unfold AimDb_get_optimized_state, _get_state, mbind, M_bind, gets. simpl.
  by rewrite (optimized_request_without_hash _ _ Hnone).
Qed.

(** X23: [serve] replaces the served set, it does not add to it, and reads
    its argument as a set: after [serve tenants1] and [serve tenants2] the
    state is asked for the tenants of [tenants2] alone, whatever [tenants1]
    was, and the order of [tenants2] and its repetitions do not count. *)
Theorem serve_replaces_served_tenants tenants1 tenants2 tenants2' operational
    s :
  (forall tenant, tenant ∈ tenants2 <-> tenant ∈ tenants2') ->
  (serve tenants1 ;; serve tenants2 ;; _get_state find_changed operational) s
  = (serve tenants2' ;; _get_state find_changed operational) s.
Proof.
  intros Hsame.
  assert (list_to_set tenants2 = (list_to_set tenants2' : gset string))
    as Hset.
  { apply set_eq. intros t. by rewrite !elem_of_list_to_set. }
  unfold serve, _get_state, mbind, M_bind, modify, gets, in_db. simpl.
  by rewrite Hset.
Qed.

End MoreStateTheorems.

Section MoreInitializeTheorems.
Context {PyObject : Type}.
Variable get_option : PyObject -> string -> string -> outcome Z.
Implicit Types (store conf_mgr : PyObject) (o : universe_object PyObject).

(** X24: an option the configuration manager cannot give stops
    [HashTreeStoredUniverse.initialize] half way: the exception of
    [get_option] leaves the method, [self] is not returned, and the object
    keeps the attributes set so far: the context, the configuration
    manager and the emptied state, with [retry_cooldown] as it was. *)
Theorem HashTreeStoredUniverse_initialize_option_raises store conf_mgr e o :
  get_option conf_mgr "max_operation_retry" "aim" = Raised e \/
  (exists max, get_option conf_mgr "max_operation_retry" "aim" = Returned max
               /\ get_option conf_mgr "retry_cooldown" "aim" = Raised e) ->
  exists o',
    HashTreeStoredUniverse_initialize get_option [store; conf_mgr] o
    = (Raised e, o') /\
    object_id o' = object_id o /\
    context o' = Some store /\ conf_manager o' = Some conf_mgr /\
    state_emptied o' = true /\
    option_retry_cooldown o' = option_retry_cooldown o.
Proof.
  unfold HashTreeStoredUniverse_initialize, BaseUniverse_initialize,
    mbind, M_bind, modify, eval, mret, M_ret. simpl.
  intros [Hmax | (max & Hmax & Hcooldown)]; rewrite Hmax; simpl.
  - by eexists.
  - rewrite Hcooldown. simpl. by eexists.
Qed.

(** X25: [HashTreeStoredUniverse.initialize] starts the object over: what it
    leaves depends on the arguments and on the identity of the object, not on
    the context, the configuration manager, the options or the state the
    object had, so initializing an initialized universe again gives what
    the last call alone gives. *)
Theorem HashTreeStoredUniverse_initialize_again
    store1 conf_mgr1 store2 conf_mgr2 max1 cooldown1 max2 cooldown2 o :
  get_option conf_mgr1 "max_operation_retry" "aim" = Returned max1 ->
  get_option conf_mgr1 "retry_cooldown" "aim" = Returned cooldown1 ->
  get_option conf_mgr2 "max_operation_retry" "aim" = Returned max2 ->
  get_option conf_mgr2 "retry_cooldown" "aim" = Returned cooldown2 ->
  (HashTreeStoredUniverse_initialize get_option [store1; conf_mgr1] ;;
   HashTreeStoredUniverse_initialize get_option [store2; conf_mgr2]) o
  = HashTreeStoredUniverse_initialize get_option [store2; conf_mgr2] o.
Proof.
  intros Hmax1 Hcooldown1 Hmax2 Hcooldown2.
  rewrite (M_bind_run _ _ _ _ _
             (HashTreeStoredUniverse_initialize_returns_self get_option
                store1 conf_mgr1 max1 cooldown1 o Hmax1 Hcooldown1)).
  by rewrite !(HashTreeStoredUniverse_initialize_returns_self get_option
                 _ conf_mgr2 max2 cooldown2) by done.
Qed.

End MoreInitializeTheorems.

(** *** The theorems on the store of the scenarios *)

Lemma get_optimized_state_without_hashes_is_state_witness :
  get_optimized_state (scenario_universe 1) view_empty_t1 serving_t1
  = state (scenario_universe 1) serving_t1 /\
  get_optimized_state (scenario_operational_universe 1) view_empty_t1
    serving_t1
  = state (scenario_operational_universe 1) serving_t1.
Proof.
  apply (get_optimized_state_without_hashes_is_state
           scenario_resource_map store_get store_get_status
           store_create store_delete store_set_fault store_clear_fault
           scenario_convert scenario_decompose scenario_dn
           scenario_find_changed 1 view_empty_t1 serving_t1).
  intros tenant tree Hserved Htree. simpl in Hserved.
  apply elem_of_singleton in Hserved as ->.
  unfold view_empty_t1 in Htree. rewrite lookup_singleton_eq in Htree.
  injection Htree as <-. reflexivity.
Defined.

Lemma serve_replaces_served_tenants_witness :
  (serve ["t0"%string] ;; serve ["t1"; "t1"]%string ;;
   _get_state scenario_find_changed false) fresh_db
  = (serve ["t1"%string] ;; _get_state scenario_find_changed false) fresh_db.
Proof.
  apply (serve_replaces_served_tenants scenario_find_changed
           ["t0"%string] ["t1"; "t1"]%string ["t1"%string] false fresh_db).
  intros tenant. rewrite !elem_of_cons. tauto.
Defined.

Lemma HashTreeStoredUniverse_initialize_option_raises_witness :
  exists o',
    HashTreeStoredUniverse_initialize scenario_get_option
      ["store"; "partial"]%string blank_object
    = (Raised (OtherError "NoSuchOptError"), o') /\
    object_id o' = object_id blank_object /\
    context o' = Some "store"%string /\
    conf_manager o' = Some "partial"%string /\
    state_emptied o' = true /\
    option_retry_cooldown o' = option_retry_cooldown blank_object.
Proof.
  apply (HashTreeStoredUniverse_initialize_option_raises scenario_get_option
           "store"%string "partial"%string (OtherError "NoSuchOptError")
           blank_object).
  right. exists 3. split; reflexivity.
Defined.

Lemma HashTreeStoredUniverse_initialize_again_witness :
  (HashTreeStoredUniverse_initialize scenario_get_option
     ["store"; "full"]%string ;;
   HashTreeStoredUniverse_initialize scenario_get_option
     ["other store"; "full"]%string) blank_object
  = HashTreeStoredUniverse_initialize scenario_get_option
      ["other store"; "full"]%string blank_object.
Proof.
  apply (HashTreeStoredUniverse_initialize_again scenario_get_option
           "store"%string "full"%string "other store"%string "full"%string
           3 10 3 10 blank_object).
  - reflexivity.
  - reflexivity.
  - reflexivity.
  - reflexivity.
Defined.
